(** * Baseball: the categorical level encoder and the sample builder

    A shallow embedding of [notebooks/mlb_feature_explainer.py] (the input
    encoding, the binary targets and the sample builder) and of
    [web_scraper_tools.py] (the HTML table parser), with the properties of
    the specification stated and proved over it.

    Python computations that may raise are values of [result]; a Python
    [None] is the [None] of an [option]; a float that is compared but never
    computed with is a rational. *)

From Stdlib Require Import String Ascii ZArith QArith Bool Lia.
From Stdlib Require Import List Permutation Sorted.
Import ListNotations.
Open Scope string_scope.
Open Scope Z_scope.
Open Scope list_scope.

Set Implicit Arguments.

(** ** Python outcomes *)

Inductive exn : Type :=
| Exception (msg : string)
| IndexError
| KeyError
| ValueError
| TypeError
| AttributeError.

Inductive result (A : Type) : Type :=
| Returned (a : A)
| Raised (e : exn).

Arguments Returned {A} a.
Arguments Raised {A} e.

Definition bind {A B : Type} (c : result A) (k : A -> result B) : result B :=
  match c with
  | Returned a => k a
  | Raised e => Raised e
  end.

Notation "x <- c ;; k" := (bind c (fun x => k))
  (at level 61, c at next level, right associativity).
Notation "' p <- c ;; k" := (bind c (fun p => k))
  (at level 61, p pattern, c at next level, right associativity).

Definition raises {A : Type} (c : result A) : Prop := exists e, c = Raised e.

Fixpoint mapM {A B : Type} (f : A -> result B) (l : list A) : result (list B) :=
  match l with
  | [] => Returned []
  | a :: t => b <- f a ;; bs <- mapM f t ;; Returned (b :: bs)
  end.

(** ** Raw categorical values

    A column holds strings (team, pitcher, park identifiers) or integers
    (year, month). *)

Inductive raw : Type :=
| RInt (z : Z)
| RStr (s : string).

Definition raw_eqb (a b : raw) : bool :=
  match a, b with
  | RInt x, RInt y => Z.eqb x y
  | RStr x, RStr y => String.eqb x y
  | _, _ => false
  end.

(** ** InputLevels *)

(** Modelled from the spec: the class [InputLevels] of the module
    [shap_explainer], which the notebook imports and which is not among the
    sources.  The vocabulary is the list [levels]: the distinct raw values
    observed at least [min_obs] times, in first-seen order, followed by the
    catch-all ["OTHER"]; an index is a position in that list. *)
Record InputLevels : Type := { levels : list raw }.

(** Modelled from the spec: the reserved catch-all level, the literal
    ["OTHER"]. *)
Definition OTHER : raw := RStr "OTHER".

(** Modelled from the spec: the observed frequency of a raw value in the
    construction sample. *)
Definition count_obs (v : raw) (values : list raw) : nat :=
  length (filter (raw_eqb v) values).

(** Modelled from the spec: the distinct values of the sample, in the order
    of their first occurrence (the spec asks for one deterministic order
    and names first-seen order as a choice). *)
Fixpoint distinct (values : list raw) : list raw :=
  match values with
  | [] => []
  | v :: vs => v :: filter (fun w => negb (raw_eqb v w)) (distinct vs)
  end.

(** Modelled from the spec: the distinct values observed at least
    [min_obs] times (the threshold is inclusive). *)
Definition retained (values : list raw) (min_obs : nat) : list raw :=
  filter (fun v => Nat.leb min_obs (count_obs v values)) (distinct values).

(** Modelled from the spec: the constructor [InputLevels(values, min_obs)]
    ("count occurrences of each distinct raw value; retain those meeting
    the threshold; order deterministically; append the catch-all level;
    assign indices by position"). *)
Definition InputLevels_init (values : list raw) (min_obs : nat) : InputLevels :=
  {| levels := retained values min_obs ++ [OTHER] |}.

(** Modelled from the spec: [len(levels)]. *)
Definition len (e : InputLevels) : Z := Z.of_nat (length (levels e)).

(** Modelled from the spec: the catch-all "always occupies the highest
    index". *)
Definition catch_all_index (e : InputLevels) : Z := len e - 1.

(** The position a value has in a list, when it has one. *)
Fixpoint position (v : raw) (l : list raw) : option nat :=
  match l with
  | [] => None
  | w :: t => if raw_eqb v w then Some O else option_map S (position v t)
  end.

(** Modelled from the spec: the mapping [index_of] ("every raw value not
    present in levels maps to the catch-all index"). *)
Definition index_of (e : InputLevels) (v : raw) : Z :=
  match position v (levels e) with
  | Some i => Z.of_nat i
  | None => catch_all_index e
  end.

(** Modelled from the spec: the mapping [value_of], looked up with the
    safe-lookup idiom the spec reports of the source: an index that is not
    a key gives Python's [None]. *)
Definition value_of (e : InputLevels) (i : Z) : option raw :=
  if i <? 0 then None else nth_error (levels e) (Z.to_nat i).

(** Modelled from the spec: [get_indexes] on one raw value. *)
Definition get_indexes (e : InputLevels) (v : raw) : result Z :=
  Returned (index_of e v).

(** Modelled from the spec: [get_levels] on one index. *)
Definition get_levels (e : InputLevels) (i : Z) : result (option raw) :=
  Returned (value_of e i).

(** Modelled from the spec: the vectorized form of [get_indexes], one
    lookup per element. *)
Definition get_indexes_seq (e : InputLevels) (vs : list raw) : result (list Z) :=
  mapM (get_indexes e) vs.

(** Modelled from the spec: the vectorized form of [get_levels]. *)
Definition get_levels_seq (e : InputLevels) (idxs : list Z) : result (list (option raw)) :=
  mapM (get_levels e) idxs.

(** ** The game records *)

Inductive side : Type := Vis | Hm.

(** [target_suffixes]: 'Runs', 'S', 'D', 'T', 'HR', 'BB', 'K'. *)
Inductive suffix : Type := sRuns | sS | sD | sT | sHR | sBB | sK.

Definition target_suffixes : list suffix := [sRuns; sS; sD; sT; sHR; sBB; sK].

Definition suffix_name (x : suffix) : string :=
  match x with
  | sRuns => "Runs" | sS => "S" | sD => "D" | sT => "T"
  | sHR => "HR" | sBB => "BB" | sK => "K"
  end.

(** A float column entry that is only compared: a rational, or NaN. *)
Definition float : Type := option Q.

Definition Qlt_bool (x y : Q) : bool :=
  (Qnum x * Zpos (Qden y) <? Qnum y * Zpos (Qden x))%Z.

(** [a > b] and [a >= b] on floats: a comparison with NaN is false. *)
Definition float_gt (a b : float) : bool :=
  match a, b with
  | Some x, Some y => Qlt_bool y x
  | _, _ => false
  end.

Definition float_ge (a b : float) : bool :=
  match a, b with
  | Some x, Some y => Qle_bool y x
  | _, _ => false
  end.

(** A row of [df[inputs + targets]] once the attendance is bucketed: every
    column may hold a missing value. *)
Record game : Type := {
  g_Year : option raw; g_Month : option raw; g_Day : option raw;
  g_DayNight : option raw; g_ParkID : option raw;
  g_Attendance : option string;
  g_HmTmLg : option raw; g_UmpHID : option raw;
  g_VisTmYr : option raw; g_VisStPchID : option raw; g_VisMgrID : option raw;
  g_HmTmYr : option raw; g_HmStPchID : option raw; g_HmMgrID : option raw;
  g_stat : side -> suffix -> float
}.

(** [df_subset['VisWin'] = df_subset['VisRuns'] > df_subset['HmRuns']] *)
Definition VisWin_col (g : game) : bool :=
  float_gt (g_stat g Vis sRuns) (g_stat g Hm sRuns).

(** [df_subset['HmWin'] = df_subset['HmRuns'] >= df_subset['VisRuns']] *)
Definition HmWin_col (g : game) : bool :=
  float_ge (g_stat g Hm sRuns) (g_stat g Vis sRuns).

(** A row of [df_subset] after [dropna]: no column is missing.  [label] is
    the row's index label, which [dropna] keeps. *)
Record row : Type := {
  label : Z;
  Year : raw; Month : raw; Day : raw; DayNight : raw; ParkID : raw;
  Attendance : string;
  HmTmLg : raw; UmpHID : raw;
  VisTmYr : raw; VisStPchID : raw; VisMgrID : raw;
  HmTmYr : raw; HmStPchID : raw; HmMgrID : raw;
  stat : side -> suffix -> Q;
  VisWin : bool; HmWin : bool
}.

Definition all_stats : list (side * suffix) :=
  flat_map (fun sd => map (pair sd) target_suffixes) [Vis; Hm].

Definition notna {A : Type} (o : option A) : bool :=
  match o with Some _ => true | None => false end.

Definition opt_bind {A B : Type} (o : option A) (k : A -> option B) : option B :=
  match o with Some a => k a | None => None end.

(** One row through the win columns and [dropna(how='any', axis='rows')]. *)
Definition dropna_row (lg : Z * game) : option row :=
  let g := snd lg in
  opt_bind (g_Year g) (fun year =>
  opt_bind (g_Month g) (fun month =>
  opt_bind (g_Day g) (fun day =>
  opt_bind (g_DayNight g) (fun daynight =>
  opt_bind (g_ParkID g) (fun park =>
  opt_bind (g_Attendance g) (fun att =>
  opt_bind (g_HmTmLg g) (fun lg_ =>
  opt_bind (g_UmpHID g) (fun ump =>
  opt_bind (g_VisTmYr g) (fun vtm =>
  opt_bind (g_VisStPchID g) (fun vp =>
  opt_bind (g_VisMgrID g) (fun vm =>
  opt_bind (g_HmTmYr g) (fun htm =>
  opt_bind (g_HmStPchID g) (fun hp =>
  opt_bind (g_HmMgrID g) (fun hm =>
  if forallb (fun p => notna (g_stat g (fst p) (snd p))) all_stats then
    Some {| label := fst lg;
            Year := year; Month := month; Day := day; DayNight := daynight;
            ParkID := park; Attendance := att; HmTmLg := lg_; UmpHID := ump;
            VisTmYr := vtm; VisStPchID := vp; VisMgrID := vm;
            HmTmYr := htm; HmStPchID := hp; HmMgrID := hm;
            stat := fun sd sf =>
                      match g_stat g sd sf with Some q => q | None => 0%Q end;
            VisWin := VisWin_col g; HmWin := HmWin_col g |}
  else None)))))))))))))).

Fixpoint dropna (df : list (Z * game)) : list row :=
  match df with
  | [] => []
  | lg :: t =>
      match dropna_row lg with
      | Some r => r :: dropna t
      | None => dropna t
      end
  end.

(** ** The encoders of the notebook *)

Definition min_obs : nat := 30%nat.

Record input_levels_t : Type := {
  years : InputLevels; months : InputLevels; dow : InputLevels;
  time_of_day : InputLevels; parks : InputLevels; leagues : InputLevels;
  umps : InputLevels; teams : InputLevels; pitchers : InputLevels;
  managers : InputLevels; home_away : InputLevels
}.

(** The hand-supplied levels of the home/away composite field.  The
    constructor is called without a threshold there; each level occurs
    once in the list and all six are retained. *)
Definition home_away_levels : InputLevels :=
  InputLevels_init
    [RStr "away_low"; RStr "away_med"; RStr "away_high";
     RStr "home_low"; RStr "home_med"; RStr "home_high"] 0.

Definition input_levels (df_subset : list row) : input_levels_t := {|
  years := InputLevels_init (map Year df_subset) min_obs;
  months := InputLevels_init (map Month df_subset) min_obs;
  dow := InputLevels_init (map Day df_subset) min_obs;
  time_of_day := InputLevels_init (map DayNight df_subset) min_obs;
  parks := InputLevels_init (map ParkID df_subset) min_obs;
  leagues := InputLevels_init (map HmTmLg df_subset) min_obs;
  umps := InputLevels_init (map UmpHID df_subset) min_obs;
  teams := InputLevels_init
             (map VisTmYr df_subset ++ map HmTmYr df_subset) min_obs;
  pitchers := InputLevels_init
                (map VisStPchID df_subset ++ map HmStPchID df_subset) min_obs;
  managers := InputLevels_init
                (map VisMgrID df_subset ++ map HmMgrID df_subset) min_obs;
  home_away := home_away_levels
|}.

(** [capacity_map]: the three attendance buckets. *)
Definition capacity_map (k : Z) : option string :=
  if k =? 0 then Some "low"
  else if k =? 1 then Some "med"
  else if k =? 2 then Some "high"
  else None.

Definition bucketed (r : row) : Prop :=
  exists k, capacity_map k = Some (Attendance r).

Definition get_inputs (il : input_levels_t) (r : row) (home_tm_last : bool)
  : result (list Z) :=
  i0 <- get_indexes (years il) (Year r) ;;
  i1 <- get_indexes (months il) (Month r) ;;
  i2 <- get_indexes (dow il) (Day r) ;;
  i3 <- get_indexes (time_of_day il) (DayNight r) ;;
  i4 <- get_indexes (parks il) (ParkID r) ;;
  i5 <- get_indexes (leagues il) (HmTmLg r) ;;
  i6 <- get_indexes (umps il) (UmpHID r) ;;
  let inputs := [i0; i1; i2; i3; i4; i5; i6] in
  if home_tm_last then
    v0 <- get_indexes (teams il) (VisTmYr r) ;;
    v1 <- get_indexes (pitchers il) (VisStPchID r) ;;
    v2 <- get_indexes (managers il) (VisMgrID r) ;;
    h0 <- get_indexes (teams il) (HmTmYr r) ;;
    h1 <- get_indexes (pitchers il) (HmStPchID r) ;;
    h2 <- get_indexes (managers il) (HmMgrID r) ;;
    a <- get_indexes (home_away il) (RStr (String.append "home_" (Attendance r))) ;;
    Returned (inputs ++ [v0; v1; v2; h0; h1; h2; a])
  else
    h0 <- get_indexes (teams il) (HmTmYr r) ;;
    h1 <- get_indexes (pitchers il) (HmStPchID r) ;;
    h2 <- get_indexes (managers il) (HmMgrID r) ;;
    v0 <- get_indexes (teams il) (VisTmYr r) ;;
    v1 <- get_indexes (pitchers il) (VisStPchID r) ;;
    v2 <- get_indexes (managers il) (VisMgrID r) ;;
    a <- get_indexes (home_away il) (RStr (String.append "away_" (Attendance r))) ;;
    Returned (inputs ++ [h0; h1; h2; v0; v1; v2; a]).

(** The fields of the vector [get_inputs] builds: the seven that do not
    look at the flag, the block of a side, and the composite field. *)
Definition common_fields (il : input_levels_t) (r : row) : list Z :=
  [index_of (years il) (Year r); index_of (months il) (Month r);
   index_of (dow il) (Day r); index_of (time_of_day il) (DayNight r);
   index_of (parks il) (ParkID r); index_of (leagues il) (HmTmLg r);
   index_of (umps il) (UmpHID r)].

Definition side_block (il : input_levels_t) (r : row) (sd : side) : list Z :=
  match sd with
  | Vis => [index_of (teams il) (VisTmYr r);
            index_of (pitchers il) (VisStPchID r);
            index_of (managers il) (VisMgrID r)]
  | Hm => [index_of (teams il) (HmTmYr r);
           index_of (pitchers il) (HmStPchID r);
           index_of (managers il) (HmMgrID r)]
  end.

Definition home_away_field (il : input_levels_t) (r : row) (home_tm_last : bool) : Z :=
  index_of (home_away il)
           (RStr (String.append (if home_tm_last then "home_" else "away_")
                                (Attendance r))).

(** The vector [get_inputs] returns, in the field order of the source. *)
Definition encoded (il : input_levels_t) (r : row) (home_tm_last : bool) : list Z :=
  common_fields il r
  ++ (if home_tm_last then side_block il r Vis ++ side_block il r Hm
      else side_block il r Hm ++ side_block il r Vis)
  ++ [home_away_field il r home_tm_last].

(** A level of the composite field that starts with ["home_"]. *)
Definition is_home_level (x : option raw) : bool :=
  match x with
  | Some (RStr s) => String.prefix "home_" s
  | _ => false
  end.

(** A record for the examples: a game of 2019 with a low attendance. *)
Definition game_2019 : row := {|
  label := 0;
  Year := RInt 2019; Month := RInt 7; Day := RStr "Sat"; DayNight := RStr "N";
  ParkID := RStr "BOS07"; Attendance := "low";
  HmTmLg := RStr "AL"; UmpHID := RStr "ump01";
  VisTmYr := RStr "NYA2019"; VisStPchID := RStr "pitv01"; VisMgrID := RStr "mgrv01";
  HmTmYr := RStr "BOS2019"; HmStPchID := RStr "pith01"; HmMgrID := RStr "mgrh01";
  stat := fun sd sf => match sd, sf with
                       | Vis, sRuns => 3%Q
                       | Hm, sRuns => 5%Q
                       | _, _ => 1%Q
                       end;
  VisWin := false; HmWin := true
|}.

(** The same game with an attendance outside the three buckets: for a
    bucket that [capacity_map] does not hold, [np.vectorize(capacity_map.get)]
    stores the string ["None"]. *)
Definition game_no_bucket : row := {|
  label := 0;
  Year := RInt 2019; Month := RInt 7; Day := RStr "Sat"; DayNight := RStr "N";
  ParkID := RStr "BOS07"; Attendance := "None";
  HmTmLg := RStr "AL"; UmpHID := RStr "ump01";
  VisTmYr := RStr "NYA2019"; VisStPchID := RStr "pitv01"; VisMgrID := RStr "mgrv01";
  HmTmYr := RStr "BOS2019"; HmStPchID := RStr "pith01"; HmMgrID := RStr "mgrh01";
  stat := stat game_2019;
  VisWin := false; HmWin := true
|}.


(** A record whose two sides name the same team, pitcher and manager. *)
Definition symmetric (r : row) : Prop :=
  VisTmYr r = HmTmYr r /\ VisStPchID r = HmStPchID r /\ VisMgrID r = HmMgrID r.

(** ** Binary targets *)

Definition float_of_bool (b : bool) : Q := if b then 1%Q else 0%Q.

Fixpoint insert_unique (x : Q) (l : list Q) : list Q :=
  match l with
  | [] => [x]
  | y :: t =>
      if Qeq_bool x y then l
      else if Qle_bool x y then x :: l
      else y :: insert_unique x t
  end.

(** [np.unique]: the sorted distinct values. *)
Definition np_unique (l : list Q) : list Q := fold_right insert_unique [] l.


(** A frame of targets: one column per threshold ([columns] holds the
    threshold [x] of the column named ['<= x']), [nrows] rows under a fresh
    range index, the cells stored by column. *)
Record target_df : Type := {
  columns : list Q;
  nrows : nat;
  cells : list (list Q)
}.

(** [a[:, i] = col] on an array of [n] rows: numpy broadcasts a column of
    one entry and refuses any other length but [n]. *)
Definition assign_column (n : nat) (col : list Q) : result (list Q) :=
  if Nat.eqb (length col) n then Returned col
  else match col with
       | [v] => Returned (repeat v n)
       | _ => Raised ValueError
       end.

Section BinaryTargets.

(** [np.quantile(var_values, q=np.linspace(0, 1, n_q))], numpy's
    floating-point interpolation, is taken as given. *)
Variable np_quantile : list Q -> nat -> list Q.

(** The notebook's global frame. *)
Variable df_subset : list row.

Definition series (sd : side) (var_suffix : suffix) : list Q :=
  map (fun r => stat r sd var_suffix) df_subset.

(** The thresholds, up to and including [quantiles = quantiles[:-1]]. *)
Definition quantiles (var_suffix : suffix) (n_q : nat) : list Q :=
  let var_values := series Vis var_suffix ++ series Hm var_suffix in
  let unique_vals := np_unique var_values in
  let qs :=
    if Nat.leb (length unique_vals) n_q then unique_vals
    else np_unique (np_quantile var_values n_q) in
  removelast qs.

Definition le_column (sd : side) (var_suffix : suffix) (q : Q) : list Q :=
  map (fun v => float_of_bool (Qle_bool v q)) (series sd var_suffix).

Definition get_binary_targets (df : list row) (var_suffix : suffix) (n_q : nat)
  : result (target_df * target_df) :=
  let n := length df in
  let qs := quantiles var_suffix n_q in
  vis <- mapM (fun q => assign_column n (le_column Vis var_suffix q)) qs ;;
  hm <- mapM (fun q => assign_column n (le_column Hm var_suffix q)) qs ;;
  Returned ({| columns := qs; nrows := n; cells := vis |},
            {| columns := qs; nrows := n; cells := hm |}).

(** [target_dfs]: one pair of frames per suffix other than 'Win', in the
    order of [target_suffixes]. *)
Definition target_dfs (n_q : nat) : result (list (suffix * (target_df * target_df))) :=
  mapM (fun sfx => p <- get_binary_targets df_subset sfx n_q ;; Returned (sfx, p))
       target_suffixes.

End BinaryTargets.

(** The entry of a frame at row [i] (a position) and column [j]. *)
Definition cell_at (t : target_df) (i j : nat) : option Q :=
  match nth_error (cells t) j with
  | Some col => nth_error col i
  | None => None
  end.

(** ** The sample builder *)

(** ['home' in x] *)
Fixpoint contains (needle hay : string) : bool :=
  if String.prefix needle hay then true
  else match hay with
       | EmptyString => false
       | String _ t => contains needle t
       end.

(** [('home' in x) if x is not None else False] *)
Definition is_home (x : option raw) : result bool :=
  match x with
  | None => Returned false
  | Some (RStr s) => Returned (contains "home" s)
  | Some (RInt _) => Raised TypeError
  end.

Definition int_of_bool (b : bool) : Z := if b then 1 else 0.

(** The outcome of the random draws of one call: the positions that
    [df.sample] picks, the draw of [rnd.rand()] for the k-th sampled row,
    and the array of the shape of [x] that [np.random.rand] returns. *)
Record randomness : Type := {
  sampled : list nat;
  rand : nat -> Q;
  np_rand : nat -> nat -> Q
}.

(** A draw of [rand] lies in the half-open unit interval. *)
Definition unit_draw (u : Q) : Prop := (0 <= u)%Q /\ (u < 1)%Q.

(** [df.iloc[idxs]]: positions, negative ones counted from the end. *)
Definition iloc (df : list row) (idxs : list Z) : result (list row) :=
  let n := Z.of_nat (length df) in
  mapM (fun i =>
          let j := if i <? 0 then i + n else i in
          if (j <? 0) || (n <=? j) then Raised IndexError
          else match nth_error df (Z.to_nat j) with
               | Some r => Returned r
               | None => Raised IndexError
               end) idxs.

(** [df.sample(n=n)]: [n] rows (one when [n] is None) at the drawn
    positions; more than the frame holds is refused. *)
Definition sample (df : list row) (n : option nat) (rnd : randomness)
  : result (list row) :=
  let k := match n with Some k => k | None => 1%nat end in
  if Nat.ltb (length df) k then Raised ValueError
  else mapM (fun p => match nth_error df p with
                      | Some r => Returned r
                      | None => Raised IndexError
                      end) (firstn k (sampled rnd)).

Fixpoint mapMi {A B : Type} (f : nat -> A -> result B) (k : nat) (l : list A)
  : result (list B) :=
  match l with
  | [] => Returned []
  | a :: t => b <- f k a ;; bs <- mapMi f (S k) t ;; Returned (b :: bs)
  end.

(** [np.stack(s.apply(...).tolist())]: an empty sample has no list of rows
    to stack. *)
Definition np_stack (rows : list (list Z)) : result (list (list Z)) :=
  match rows with
  | [] => Raised AttributeError
  | _ => Returned rows
  end.

(** [x[mask] = 0] for [mask = u <= mask_p], [u] the array of draws. *)
Definition apply_mask (x : list (list Z)) (mask_p : Q) (u : nat -> nat -> Q)
  : list (list Z) :=
  let mask i j := Qle_bool (u i j) mask_p in
  map (fun ir => map (fun jv => if mask (fst ir) (fst jv) then 0 else snd jv)
                     (combine (seq 0 (length (snd ir))) (snd ir)))
      (combine (seq 0 (length x)) x).

(** The masking step of [get_sample]. *)
Definition mask_step (x : list (list Z)) (mask_p : Q) (u : nat -> nat -> Q)
  : list (list Z) :=
  if Qlt_bool 0 mask_p then apply_mask x mask_p u else x.

(** [v.loc[s.index]] on a frame with a range index: the rows whose labels
    are asked for, a KeyError for a label that is not a position. *)
Definition loc (t : target_df) (labels : list Z) : result (list (list Q)) :=
  mapM (fun l =>
          if (l <? 0) || (Z.of_nat (nrows t) <=? l) then Raised KeyError
          else Returned (map (fun col => nth (Z.to_nat l) col 0%Q) (cells t)))
       labels.

(** [a[row_idx, vis_hm_idx]] on the two stacked alternatives. *)
Definition pick {A : Type} (vis hm : A) (idx : Z) : A :=
  if idx =? 0 then vis else hm.

Record targets_t : Type := {
  Win : list Q;
  team_opp : list (suffix * (list (list Q) * list (list Q)))
}.

Definition get_sample (il : input_levels_t) (df : list row)
    (tdfs : list (suffix * (target_df * target_df)))
    (n : option nat) (idxs : option (list Z)) (mask_p : Q) (rnd : randomness)
  : result (list (list Z) * targets_t) :=
  s <- match idxs with
       | Some l => iloc df l
       | None => sample df n rnd
       end ;;
  rows <- mapMi (fun k r => get_inputs il r (Qle_bool (rand rnd k) (1 # 2))) O s ;;
  x <- np_stack rows ;;
  lv <- get_levels_seq (home_away il) (map (fun xr => last xr 0) x) ;;
  homes <- mapM is_home lv ;;
  let vis_hm_idx := map int_of_bool homes in
  let x := mask_step x mask_p (np_rand rnd) in
  let win :=
    map (fun p => float_of_bool (pick (VisWin (fst p)) (HmWin (fst p)) (snd p)))
        (combine s vis_hm_idx) in
  tos <- mapM (fun kv =>
                 vis <- loc (fst (snd kv)) (map label s) ;;
                 hm <- loc (snd (snd kv)) (map label s) ;;
                 let v := combine (combine vis hm) vis_hm_idx in
                 Returned (fst kv,
                           (map (fun p => pick (fst (fst p)) (snd (fst p)) (snd p)) v,
                            map (fun p => pick (fst (fst p)) (snd (fst p)) (1 - snd p)) v)))
              tdfs ;;
  Returned (x, {| Win := win; team_opp := tos |}).

(** Draws for the examples: [rnd.rand()] gives 0.25 and every entry of
    [np.random.rand] is 0.5. *)
Definition draws_quarter : randomness :=
  {| sampled := [O]; rand := fun _ => 1 # 4; np_rand := fun _ _ => 1 # 2 |}.

(** ** The evaluation loop *)

(** [range(a, b)] *)
Definition range (a b : Z) : list Z :=
  map (fun k => a + Z.of_nat k) (seq 0 (Z.to_nat (b - a))).

(** The values of [i] in the loop: [range(0, len(df_subset)//1000 + 1)]. *)
Definition eval_turns (df : list row) : list Z :=
  range 0 (Z.of_nat (length df) / 1000 + 1).

(** [idxs = range(i*1000, min(len(df_subset), (i + 1)*1000))] *)
Definition eval_idxs (df : list row) (i : Z) : list Z :=
  range (i * 1000) (Z.min (Z.of_nat (length df)) ((i + 1) * 1000)).

(** The calls [get_sample(df_subset, target_dfs, idxs=idxs, mask_p=0)] of
    the loop, one per turn and in order, up to the first that raises;
    [rnd i] holds the draws of the i-th call. *)
Definition eval_samples (il : input_levels_t) (df : list row)
    (tdfs : list (suffix * (target_df * target_df))) (rnd : Z -> randomness)
  : result (list (list (list Z) * targets_t)) :=
  mapM (fun i => get_sample il df tdfs None (Some (eval_idxs df i)) 0 (rnd i))
       (eval_turns df).

(** The frame of the targets of one side for a statistic, as the call of
    [get_binary_targets] on the notebook's frame builds it. *)
Definition stat_frame (np_quantile : list Q -> nat -> list Q)
    (df_subset : list row) (sd : side) (sfx : suffix) (n_q : nat) : target_df :=
  {| columns := quantiles np_quantile df_subset sfx n_q;
     nrows := length df_subset;
     cells := map (le_column df_subset sd sfx)
                  (quantiles np_quantile df_subset sfx n_q) |}.

(** The entry of an array of index vectors at row [i] and column [j]. *)
Definition entry (x : list (list Z)) (i j : nat) : option Z :=
  match nth_error x i with
  | Some r => nth_error r j
  | None => None
  end.


(** ** The module search path *)

(** The entries of a list without repetitions, each at its first place. *)
Fixpoint first_seen (l : list string) : list string :=
  match l with
  | [] => []
  | a :: t => a :: filter (fun b => negb (String.eqb a b)) (first_seen t)
  end.

Section SysPath.

(** [os.sep] *)
Variable sep : string.

(** The loop over [path_parts[1:]]: [p] grows by one part a turn and is
    appended to [sys.path] unless it is there. *)
Fixpoint add_parents (p : string) (parts : list string) (sys_path : list string)
  : list string :=
  match parts with
  | [] => sys_path
  | part :: t =>
      let p' := String.append (String.append p sep) part in
      add_parents p' t
                  (if existsb (String.eqb p') sys_path then sys_path
                   else sys_path ++ [p'])
  end.

(** The paths the loop builds, in order. *)
Fixpoint parents (p : string) (parts : list string) : list string :=
  match parts with
  | [] => []
  | part :: t =>
      let p' := String.append (String.append p sep) part in
      p' :: parents p' t
  end.

(** [p = path_parts[0]] and the loop; [sys.path] afterwards. *)
Definition extend_sys_path (path_parts : list string) (sys_path : list string)
  : result (list string) :=
  match path_parts with
  | [] => Raised IndexError
  | p :: parts => Returned (add_parents p parts sys_path)
  end.

End SysPath.

(** Two rows of the raw frame for the examples: a complete one, and one
    whose visitors' runs are missing, which [dropna] removes. *)
Definition gamelog_2019 : game := {|
  g_Year := Some (RInt 2019); g_Month := Some (RInt 7); g_Day := Some (RStr "Sat");
  g_DayNight := Some (RStr "N"); g_ParkID := Some (RStr "BOS07");
  g_Attendance := Some "low";
  g_HmTmLg := Some (RStr "AL"); g_UmpHID := Some (RStr "ump01");
  g_VisTmYr := Some (RStr "NYA2019"); g_VisStPchID := Some (RStr "pitv01");
  g_VisMgrID := Some (RStr "mgrv01");
  g_HmTmYr := Some (RStr "BOS2019"); g_HmStPchID := Some (RStr "pith01");
  g_HmMgrID := Some (RStr "mgrh01");
  g_stat := fun sd sf => Some (stat game_2019 sd sf)
|}.

Definition gamelog_no_runs : game := {|
  g_Year := Some (RInt 2019); g_Month := Some (RInt 7); g_Day := Some (RStr "Fri");
  g_DayNight := Some (RStr "N"); g_ParkID := Some (RStr "BOS07");
  g_Attendance := Some "low";
  g_HmTmLg := Some (RStr "AL"); g_UmpHID := Some (RStr "ump01");
  g_VisTmYr := Some (RStr "NYA2019"); g_VisStPchID := Some (RStr "pitv02");
  g_VisMgrID := Some (RStr "mgrv01");
  g_HmTmYr := Some (RStr "BOS2019"); g_HmStPchID := Some (RStr "pith02");
  g_HmMgrID := Some (RStr "mgrh01");
  g_stat := fun sd sf => match sd, sf with
                         | Vis, sRuns => None
                         | _, _ => Some 1%Q
                         end
|}.

(** ** The HTML table parser *)

Module WebScraper.

(** A [tr] element as the parser reads it: the texts of
    [row.find_all('td')] and of [row.find_all('th')]. *)
Record tr : Type := { td : list string; th : list string }.

(** [table.find_all('tr')] *)
Definition Tag : Type := list tr.

(** A Python float: a finite value, an infinity, or NaN. *)
Inductive pyfloat : Type :=
| Finite (q : Q)
| PosInf
| NegInf
| NaN.

(** A cell of the frame: the text of a [td], or a float; a cell that was
    never written holds NaN. *)
Inductive cell : Type :=
| Text (s : string)
| Number (f : pyfloat).

Inductive col_label : Type :=
| Name (s : string)
| Position (n : nat).

Definition col_label_eqb (a b : col_label) : bool :=
  match a, b with
  | Name x, Name y => String.eqb x y
  | Position x, Position y => Nat.eqb x y
  | _, _ => false
  end.

Record DataFrame : Type := {
  columns : list col_label;
  values : list (list cell)
}.

Record counters : Type := {
  n_columns : nat;
  n_rows : nat;
  column_names : list string
}.

(** One turn of the first loop. *)
Definition count_row (c : counters) (row : tr) : counters :=
  let c1 :=
    if Nat.ltb 0 (length (td row)) then
      {| n_columns := if Nat.eqb (n_columns c) 0 then length (td row)
                      else n_columns c;
         n_rows := n_rows c + 1;
         column_names := column_names c |}
    else c in
  if Nat.ltb 0 (length (th row)) && Nat.eqb (length (column_names c1)) 0 then
    {| n_columns := n_columns c1;
       n_rows := n_rows c1;
       column_names := column_names c1 ++ th row |}
  else c1.

Definition count_table (table : Tag) : counters :=
  fold_left count_row table
            {| n_columns := 0; n_rows := 0; column_names := [] |}.

(** [pd.DataFrame(columns=columns, index=range(0, n_rows))] *)
Definition empty_frame (cols : list col_label) (n : nat) : DataFrame :=
  {| columns := cols; values := repeat (repeat (Number NaN) (length cols)) n |}.

Fixpoint set_nth {A : Type} (i : nat) (x : A) (l : list A) : list A :=
  match l, i with
  | [], _ => []
  | _ :: t, O => x :: t
  | a :: t, S k => a :: set_nth k x t
  end.

(** [df.iat[i, j] = v]: a position outside the frame is an IndexError. *)
Definition iat_set (df : DataFrame) (i j : nat) (v : cell) : result DataFrame :=
  match nth_error (values df) i with
  | None => Raised IndexError
  | Some r =>
      if Nat.ltb j (length r) then
        Returned {| columns := columns df;
                    values := set_nth i (set_nth j v r) (values df) |}
      else Raised IndexError
  end.

(** The inner loop over the [td] cells of one row. *)
Fixpoint fill_row (df : DataFrame) (row_marker column_marker : nat)
         (cols : list string) : result DataFrame :=
  match cols with
  | [] => Returned df
  | c :: t =>
      df' <- iat_set df row_marker column_marker (Text c) ;;
      fill_row df' row_marker (S column_marker) t
  end.

(** The second loop over the rows. *)
Fixpoint fill (df : DataFrame) (row_marker : nat) (table : Tag)
  : result DataFrame :=
  match table with
  | [] => Returned df
  | row :: t =>
      df' <- fill_row df row_marker 0 (td row) ;;
      fill df' (if Nat.ltb 0 (length (td row)) then S row_marker
                else row_marker) t
  end.

Section Convert.

(** Python's [float] on a string: [None] stands for its ValueError. *)
Variable to_float : string -> option pyfloat.

Definition astype_float_cell (c : cell) : option cell :=
  match c with
  | Text s => option_map Number (to_float s)
  | Number f => Some (Number f)
  end.

Fixpoint all_some {A : Type} (l : list (option A)) : option (list A) :=
  match l with
  | [] => Some []
  | None :: _ => None
  | Some a :: t => option_map (cons a) (all_some t)
  end.

(** The positions of the columns that carry a label. *)
Definition positions_of (df : DataFrame) (l : col_label) : list nat :=
  filter (fun j => match nth_error (columns df) j with
                   | Some l' => col_label_eqb l l'
                   | None => false
                   end)
         (seq 0 (length (columns df))).

(** The row [r] with its cells at the positions [js] converted. *)
Definition astype_float_row (js : list nat) (r : list cell)
  : option (list cell) :=
  all_some (map (fun jc => if existsb (Nat.eqb (fst jc)) js
                           then astype_float_cell (snd jc)
                           else Some (snd jc))
                (combine (seq 0 (length r)) r)).

(** [try: df[column] = df[column].astype(float) except ValueError: pass]:
    the columns under the label are converted when each of their cells
    is a float or parses as one, and left as they are otherwise. *)
Definition convert_column (df : DataFrame) (column : col_label) : DataFrame :=
  match all_some (map (astype_float_row (positions_of df column)) (values df)) with
  | Some vs => {| columns := columns df; values := vs |}
  | None => df
  end.

Definition convert (df : DataFrame) : DataFrame :=
  fold_left convert_column (columns df) df.

Definition html_table_to_df (table : Tag) : result DataFrame :=
  let c := count_table table in
  if Nat.ltb 0 (length (column_names c))
     && negb (Nat.eqb (length (column_names c)) (n_columns c))
  then Raised (Exception "Column titles do not match the number of columns")
  else
    let columns :=
      if Nat.ltb 0 (length (column_names c)) then map Name (column_names c)
      else map Position (seq 0 (n_columns c)) in
    df <- fill (empty_frame columns (n_rows c)) 0 table ;;
    Returned (convert df).

End Convert.

(** The quantities the parser's contract is stated with. *)

(** The rows that hold [td] cells. *)
Definition data_rows (table : Tag) : list tr :=
  filter (fun row => Nat.ltb 0 (length (td row))) table.

(** The number of [td] cells of the first data row, 0 when there is none. *)
Definition first_row_width (table : Tag) : nat :=
  match data_rows table with
  | [] => O
  | row :: _ => length (td row)
  end.

(** The [th] texts of the first row that has any. *)
Definition header (table : Tag) : list string :=
  match filter (fun row => Nat.ltb 0 (length (th row))) table with
  | [] => []
  | row :: _ => th row
  end.

Definition titles_mismatch (table : Tag) : Prop :=
  header table <> [] /\ length (header table) <> first_row_width table.

Definition expected_columns (table : Tag) : list col_label :=
  match header table with
  | [] => map Position (seq 0 (first_row_width table))
  | names => map Name names
  end.

(** The frames the fill loops run over: [h] rows of [w] cells. *)
Definition shaped (w h : nat) (df : DataFrame) : Prop :=
  length (values df) = h /\ Forall (fun r => length r = w) (values df).

(** The row the fill loops write for a [tr]: the texts of its cells, then
    NaN up to the width of the frame. *)
Definition padded (w : nat) (row : tr) : list cell :=
  map Text (td row) ++ repeat (Number NaN) (w - length (td row)).

(** The frame as the two fill loops leave it, before the conversion. *)
Definition filled (table : Tag) : DataFrame :=
  {| columns := expected_columns table;
     values := map (padded (first_row_width table)) (data_rows table) |}.

(** Some row holds more [td] cells than the first data row. *)
Definition has_wide_row (table : Tag) : Prop :=
  exists row, In row table /\ (first_row_width table < length (td row))%nat.

(** The cell of a frame at row [i] and column [j]. *)
Definition cell_of (df : DataFrame) (i j : nat) : option cell :=
  match nth_error (values df) i with
  | Some r => nth_error r j
  | None => None
  end.

(** A cell that [astype(float)] accepts, and what it makes of it. *)
Definition parses (to_float : string -> option pyfloat) (c : cell) : bool :=
  match astype_float_cell to_float c with Some _ => true | None => false end.

Definition as_float (to_float : string -> option pyfloat) (c : cell) : cell :=
  match astype_float_cell to_float c with Some c' => c' | None => c end.

(** The cells of a row at the positions [js] are all accepted, and the row
    with those cells converted. *)
Definition row_parses (to_float : string -> option pyfloat)
    (js : list nat) (r : list cell) : bool :=
  forallb (fun jc => implb (existsb (Nat.eqb (fst jc)) js)
                           (parses to_float (snd jc)))
          (combine (seq 0 (length r)) r).

Definition row_as_float (to_float : string -> option pyfloat)
    (js : list nat) (r : list cell) : list cell :=
  map (fun jc => if existsb (Nat.eqb (fst jc)) js
                 then as_float to_float (snd jc) else snd jc)
      (combine (seq 0 (length r)) r).

(** Every cell of every column under the label [l] is accepted: the test
    that [df[column].astype(float)] passes. *)
Definition label_parses (to_float : string -> option pyfloat)
    (df : DataFrame) (l : col_label) : bool :=
  forallb (row_parses to_float (positions_of df l)) (values df).

End WebScraper.

(** * Properties *)

(** ** Raw values and positions *)

Lemma raw_eqb_spec (a b : raw) : reflect (a = b) (raw_eqb a b).
Proof.
  destruct a as [x|x], b as [y|y]; simpl; try (constructor; discriminate).
  - destruct (Z.eqb_spec x y); constructor; congruence.
  - destruct (String.eqb_spec x y); constructor; congruence.
Qed.

Lemma raw_eqb_refl (a : raw) : raw_eqb a a = true.
Proof. destruct (raw_eqb_spec a a); congruence. Qed.

Lemma position_absent (v : raw) (l : list raw) :
  ~ In v l -> position v l = None.
Proof.
  induction l as [|w t IH]; simpl; intros Hn; [reflexivity|].
  destruct (raw_eqb_spec v w) as [->|Hne].
  - exfalso. apply Hn. now left.
  - rewrite IH; [reflexivity|]. intros Hin. apply Hn. now right.
Qed.

Lemma position_app_absent (v : raw) (l : list raw) :
  ~ In v l -> position v (l ++ [v]) = Some (length l).
Proof.
  induction l as [|w t IH]; simpl; intros Hn.
  - now rewrite raw_eqb_refl.
  - destruct (raw_eqb_spec v w) as [->|Hne].
    + exfalso. apply Hn. now left.
    + rewrite IH; [reflexivity|]. intros Hin. apply Hn. now right.
Qed.

Lemma position_nth (l : list raw) :
  NoDup l ->
  forall (i : nat) (v : raw), nth_error l i = Some v -> position v l = Some i.
Proof.
  induction 1 as [|w t Hw Hnd IH]; intros [|i] v Hv; simpl in *; try discriminate.
  - injection Hv as ->. now rewrite raw_eqb_refl.
  - destruct (raw_eqb_spec v w) as [->|Hne].
    + exfalso. apply Hw. eapply nth_error_In. eassumption.
    + now rewrite (IH i v Hv).
Qed.

Lemma position_app_l (v : raw) (l l' : list raw) (i : nat) :
  position v l = Some i -> position v (l ++ l') = Some i.
Proof.
  revert i. induction l as [|w t IH]; simpl; intros i Hp; [discriminate|].
  destruct (raw_eqb v w); [assumption|].
  destruct (position v t) as [k|]; simpl in *; [|discriminate].
  now rewrite (IH k eq_refl).
Qed.

(** ** The vocabulary *)

Lemma distinct_In (v : raw) (values : list raw) :
  In v (distinct values) <-> In v values.
Proof.
  induction values as [|w t IH]; simpl; [tauto|].
  rewrite filter_In, IH. split.
  - intros [->|[Hin _]]; auto.
  - intros [->|Hin]; [now left|].
    destruct (raw_eqb_spec w v) as [->|Hne]; [now left|right; now split].
Qed.

Lemma distinct_NoDup (values : list raw) : NoDup (distinct values).
Proof.
  induction values as [|w t IH]; simpl; constructor.
  - rewrite filter_In. intros [_ Hneq]. now rewrite raw_eqb_refl in Hneq.
  - now apply NoDup_filter.
Qed.

Lemma retained_NoDup (values : list raw) (m : nat) : NoDup (retained values m).
Proof. apply NoDup_filter, distinct_NoDup. Qed.

(** A value is retained exactly when it is observed at least [min_obs]
    times (the threshold is inclusive) and at least once. *)
Lemma retained_In (values : list raw) (m : nat) (v : raw) :
  In v (retained values m) <->
  In v values /\ (m <= count_obs v values)%nat.
Proof.
  unfold retained. rewrite filter_In, distinct_In, Nat.leb_le. tauto.
Qed.

Lemma len_init (values : list raw) (m : nat) :
  len (InputLevels_init values m) = Z.of_nat (length (retained values m)) + 1.
Proof. unfold len; simpl. rewrite length_app; simpl. lia. Qed.

Lemma catch_all_init (values : list raw) (m : nat) :
  catch_all_index (InputLevels_init values m)
  = Z.of_nat (length (retained values m)).
Proof. unfold catch_all_index. rewrite len_init. lia. Qed.

Lemma value_of_nat (e : InputLevels) (i : nat) :
  value_of e (Z.of_nat i) = nth_error (levels e) i.
Proof.
  unfold value_of. destruct (Z.ltb_spec (Z.of_nat i) 0); [lia|].
  now rewrite Nat2Z.id.
Qed.

Lemma value_of_catch_all (values : list raw) (m : nat) :
  value_of (InputLevels_init values m)
           (catch_all_index (InputLevels_init values m)) = Some OTHER.
Proof.
  rewrite catch_all_init, value_of_nat; simpl.
  rewrite nth_error_app2, Nat.sub_diag; [reflexivity|lia].
Qed.

Lemma index_of_unlearned (values : list raw) (m : nat) (u : raw) :
  ~ In u (retained values m) ->
  index_of (InputLevels_init values m) u
  = catch_all_index (InputLevels_init values m).
Proof.
  intros Hn. rewrite catch_all_init. unfold index_of; simpl.
  destruct (raw_eqb_spec u OTHER) as [->|Hne].
  - now rewrite position_app_absent.
  - rewrite position_absent; [now rewrite catch_all_init|].
    rewrite in_app_iff; simpl. intuition congruence.
Qed.

Lemma value_of_out_of_range (e : InputLevels) (i : Z) :
  i < 0 \/ len e <= i -> value_of e i = None.
Proof.
  unfold value_of, len. intros [Hi|Hi].
  - destruct (Z.ltb_spec i 0); [reflexivity|lia].
  - destruct (Z.ltb_spec i 0); [reflexivity|].
    apply nth_error_None. lia.
Qed.

Lemma value_of_in_range (e : InputLevels) (i : Z) :
  0 <= i < len e -> exists v, value_of e i = Some v.
Proof.
  unfold value_of, len. intros Hi.
  destruct (Z.ltb_spec i 0); [lia|].
  destruct (nth_error (levels e) (Z.to_nat i)) as [v|] eqn:E; [eauto|].
  apply nth_error_None in E. lia.
Qed.

Lemma index_of_value_of (values : list raw) (m : nat) (i : Z) (v : raw) :
  value_of (InputLevels_init values m) i = Some v ->
  v <> OTHER ->
  index_of (InputLevels_init values m) v = i.
Proof.
  unfold value_of, index_of; simpl. intros Hv Hne.
  destruct (Z.ltb_spec i 0); [discriminate|].
  assert (Hlt : (Z.to_nat i < length (retained values m))%nat).
  { destruct (Nat.lt_ge_cases (Z.to_nat i) (length (retained values m)))
      as [Hlt|Hge]; [assumption|].
    rewrite nth_error_app2 in Hv by assumption.
    destruct (Z.to_nat i - length (retained values m))%nat as [|[|k]];
      simpl in Hv; congruence. }
  rewrite nth_error_app1 in Hv by assumption.
  erewrite position_app_l
    by (eapply position_nth; [apply retained_NoDup | eassumption]).
  lia.
Qed.

Lemma mapM_Returned {A B : Type} (f : A -> B) (l : list A) :
  mapM (fun a => Returned (f a)) l = Returned (map f l).
Proof. induction l as [|a t IH]; simpl; [reflexivity|now rewrite IH]. Qed.

(** ** Unknown values and the catch-all *)

(** C6: a raw value that is not among the learned levels (observed fewer
    than [min_obs] times, or never) gets the catch-all index from
    [get_indexes], which returns and does not raise, on a single value and
    on every element of a sequence alike; and [get_levels] of the catch-all
    index is the literal ["OTHER"]. *)
Theorem get_indexes_unknown_is_catch_all
    (values : list raw) (m : nat) (u : raw) (us : list raw) :
  let e := InputLevels_init values m in
  ~ In u (retained values m) ->
  Forall (fun w => ~ In w (retained values m)) us ->
  get_indexes e u = Returned (catch_all_index e)
  /\ get_indexes_seq e us = Returned (map (fun _ => catch_all_index e) us)
  /\ get_levels e (catch_all_index e) = Returned (Some OTHER).
Proof.
  intros e Hu Hus. unfold get_indexes_seq, get_indexes, get_levels.
  split; [|split].
  - unfold e. now rewrite index_of_unlearned.
  - rewrite mapM_Returned. f_equal. apply map_ext_in.
    intros w Hw. rewrite Forall_forall in Hus.
    unfold e. now rewrite index_of_unlearned by auto.
  - unfold e. now rewrite value_of_catch_all.
Qed.

Lemma get_indexes_unknown_is_catch_all_witness :
  let e := InputLevels_init
             [RStr "a"; RStr "a"; RStr "a"; RStr "b"; RStr "b"; RStr "b"; RStr "c"] 3 in
  get_indexes e (RStr "c") = Returned 2
  /\ get_indexes_seq e [RStr "z"; RInt 7; RStr "z"] = Returned [2; 2; 2]
  /\ get_levels e 2 = Returned (Some OTHER).
Proof.
  apply (@get_indexes_unknown_is_catch_all
           [RStr "a"; RStr "a"; RStr "a"; RStr "b"; RStr "b"; RStr "b"; RStr "c"]
           3 (RStr "c") [RStr "z"; RInt 7; RStr "z"]).
  - simpl. intros [H|[H|[]]]; discriminate.
  - repeat constructor; simpl; intros [H|[H|[]]]; discriminate.
Defined.

(** ** Round trip *)

(** C7: for an index [i] of the vocabulary, [get_levels] gives a level,
    and unless that level is ["OTHER"], [get_indexes] maps it back to [i]. *)
Theorem get_indexes_get_levels_round_trip
    (values : list raw) (m : nat) (i : Z) :
  let e := InputLevels_init values m in
  0 <= i < len e ->
  exists v, get_levels e i = Returned (Some v)
            /\ (v <> OTHER -> get_indexes e v = Returned i).
Proof.
  intros e Hi. destruct (value_of_in_range e Hi) as [v Hv].
  exists v. unfold get_levels, get_indexes. rewrite Hv. split; [reflexivity|].
  intros Hne. unfold e in *. now rewrite (@index_of_value_of _ _ _ _ Hv Hne).
Qed.

Lemma get_indexes_get_levels_round_trip_witness :
  exists v,
    get_levels (InputLevels_init
                  [RStr "a"; RStr "a"; RStr "a"; RStr "b"; RStr "b"; RStr "b"; RStr "c"] 3) 1
    = Returned (Some v)
    /\ (v <> OTHER ->
        get_indexes (InputLevels_init
                       [RStr "a"; RStr "a"; RStr "a"; RStr "b"; RStr "b"; RStr "b"; RStr "c"] 3) v
        = Returned 1).
Proof.
  apply (@get_indexes_get_levels_round_trip
           [RStr "a"; RStr "a"; RStr "a"; RStr "b"; RStr "b"; RStr "b"; RStr "c"] 3 1).
  vm_compute. split; [discriminate | reflexivity].
Defined.

(** ** Decoding an index outside the vocabulary *)

(** C3, as stated, fails: index 7 is outside the seven levels of the
    home/away field, and [get_levels] returns there instead of raising. *)
Lemma get_levels_out_of_range_not_raised :
  ~ ((7 < 0 \/ len home_away_levels <= 7) ->
     raises (get_levels home_away_levels 7)).
Proof.
  intros H. destruct H as [e He].
  - right. vm_compute. discriminate.
  - discriminate He.
Qed.

(** C3, amended: on an index outside [0, len(levels)), [get_levels] does
    not raise; it returns Python's [None], the placeholder that
    [get_sample] tests for and reads as "not home". *)
Theorem get_levels_out_of_range_is_None (e : InputLevels) (i : Z) :
  i < 0 \/ len e <= i ->
  get_levels e i = Returned None
  /\ ~ raises (get_levels e i)
  /\ bind (get_levels e i) is_home = Returned false.
Proof.
  intros Hi. unfold get_levels. rewrite (value_of_out_of_range e Hi).
  repeat split. intros [x Hx]. discriminate Hx.
Qed.

Lemma get_levels_out_of_range_is_None_witness :
  get_levels home_away_levels (-1) = Returned None
  /\ ~ raises (get_levels home_away_levels (-1))
  /\ bind (get_levels home_away_levels (-1)) is_home = Returned false.
Proof.
  apply (@get_levels_out_of_range_is_None home_away_levels (-1)).
  left. reflexivity.
Defined.

(** ** The encoded vector *)

Lemma get_inputs_returns (il : input_levels_t) (r : row) (b : bool) :
  get_inputs il r b = Returned (encoded il r b).
Proof. destruct b; reflexivity. Qed.

Lemma last_encoded (il : input_levels_t) (r : row) (b : bool) :
  last (encoded il r b) 0 = home_away_field il r b.
Proof. destruct b; reflexivity. Qed.

Lemma bucketed_cases (r : row) :
  bucketed r ->
  Attendance r = "low" \/ Attendance r = "med" \/ Attendance r = "high".
Proof.
  intros [k Hk]. unfold capacity_map in Hk.
  destruct (k =? 0); [injection Hk; auto|].
  destruct (k =? 1); [injection Hk; auto|].
  destruct (k =? 2); [injection Hk; auto|discriminate].
Qed.

(** For a bucketed attendance the composite field is the index of
    ["away_<bucket>"] or, three places further, of ["home_<bucket>"]. *)
Lemma home_away_field_bucketed (df : list row) (r : row) :
  bucketed r ->
  home_away_field (input_levels df) r true
  = home_away_field (input_levels df) r false + 3
  /\ 0 <= home_away_field (input_levels df) r false < 3.
Proof.
  intros Hb. unfold home_away_field; simpl.
  destruct (bucketed_cases Hb) as [-> | [-> | ->]]; vm_compute;
    (split; [reflexivity|split; [discriminate|reflexivity]]).
Qed.

(** The composite field decodes to the level it encodes. *)
Lemma home_away_field_decodes (df : list row) (r : row) (b : bool) :
  bucketed r ->
  value_of (home_away (input_levels df)) (home_away_field (input_levels df) r b)
  = Some (RStr (String.append (if b then "home_" else "away_") (Attendance r))).
Proof.
  intros Hb. unfold home_away_field; simpl.
  destruct (bucketed_cases Hb) as [-> | [-> | ->]]; destruct b; reflexivity.
Qed.

(** C8: the first seven positions of the encoded vector (year, month, day,
    day/night, park, league, umpire) are the same for both values of
    [home_tm_last]; the flag only reaches the seven positions after them. *)
Theorem get_inputs_common_prefix (il : input_levels_t) (r : row) :
  exists xt xf,
    get_inputs il r true = Returned xt
    /\ get_inputs il r false = Returned xf
    /\ length xt = 14%nat /\ length xf = 14%nat
    /\ firstn 7 xt = firstn 7 xf
    /\ firstn 7 xt = common_fields il r.
Proof.
  do 2 eexists. rewrite !get_inputs_returns.
  repeat split; reflexivity.
Qed.

(** A bucketed attendance is one of the three names of [capacity_map]. *)
Lemma bucketed_iff (r : row) :
  bucketed r
  <-> Attendance r = "low" \/ Attendance r = "med" \/ Attendance r = "high".
Proof.
  split; [apply bucketed_cases|].
  unfold bucketed.
  intros [H | [H | H]]; rewrite H;
    [exists 0 | exists 1 | exists 2]; reflexivity.
Qed.

Lemma bucketed_dec (r : row) : bucketed r \/ ~ bucketed r.
Proof.
  rewrite bucketed_iff.
  destruct (string_dec (Attendance r) "low"); [tauto|].
  destruct (string_dec (Attendance r) "med"); [tauto|].
  destruct (string_dec (Attendance r) "high"); tauto.
Qed.

(** With any other attendance neither ["home_..."] nor ["away_..."] is a
    level, and the composite field is the catch-all index whatever the
    flag. *)
Lemma home_away_field_unbucketed (df : list row) (r : row) (b : bool) :
  ~ bucketed r ->
  home_away_field (input_levels df) r b = catch_all_index home_away_levels.
Proof.
  rewrite bucketed_iff. intros Hn.
  unfold home_away_field, index_of.
  change (levels (home_away (input_levels df)))
    with [RStr "away_low"; RStr "away_med"; RStr "away_high";
          RStr "home_low"; RStr "home_med"; RStr "home_high"; OTHER].
  destruct b; cbn;
    destruct (String.eqb_spec (Attendance r) "low"); try tauto;
    destruct (String.eqb_spec (Attendance r) "med"); try tauto;
    destruct (String.eqb_spec (Attendance r) "high"); try tauto;
    reflexivity.
Qed.

(** The composite field is the same under both flags exactly when the
    attendance is not bucketed. *)
Lemma home_away_field_same (df : list row) (r : row) :
  home_away_field (input_levels df) r true = home_away_field (input_levels df) r false
  <-> ~ bucketed r.
Proof.
  split.
  - intros He Hb. destruct (home_away_field_bucketed df Hb) as [Heq _]. lia.
  - intros Hn. now rewrite !home_away_field_unbucketed.
Qed.

(** Two vectors with permuted fronts are permutations of each other
    exactly when their last entries agree. *)
Lemma Permutation_last_entry (l l' : list Z) (x y : Z) :
  Permutation l l' ->
  (Permutation (l ++ [x]) (l' ++ [y]) <-> x = y).
Proof.
  intros Hp. split.
  - intros H.
    assert (H' : Permutation (l ++ [x]) (l ++ [y])).
    { eapply Permutation_trans; [exact H|].
      apply Permutation_app_tail, Permutation_sym, Hp. }
    apply Permutation_app_inv_l in H'. now apply Permutation_length_1.
  - intros ->. now apply Permutation_app_tail.
Qed.

Lemma symmetric_side_blocks (il : input_levels_t) (r : row) :
  symmetric r -> side_block il r Vis = side_block il r Hm.
Proof. intros (H1 & H2 & H3). unfold side_block. now rewrite H1, H2, H3. Qed.

(** C1, as stated, fails on both counts.  The two encodings of
    [game_2019] are not permutations of each other, since only one of them
    holds the index 3 of ["home_low"]; and the two encodings of
    [game_no_bucket] are the same vector although its two sides differ:
    neither side is a level of its encoder, and the attendance is no
    bucket. *)
Lemma get_inputs_flags_not_permutation :
  ~ (exists xt xf,
        get_inputs (input_levels [game_2019]) game_2019 true = Returned xt
        /\ get_inputs (input_levels [game_2019]) game_2019 false = Returned xf
        /\ Permutation xt xf)
  /\ get_inputs (input_levels [game_no_bucket]) game_no_bucket true
     = Returned [0; 0; 0; 0; 0; 0; 0; 0; 0; 0; 0; 0; 0; 6]
  /\ get_inputs (input_levels [game_no_bucket]) game_no_bucket false
     = Returned [0; 0; 0; 0; 0; 0; 0; 0; 0; 0; 0; 0; 0; 6]
  /\ ~ symmetric game_no_bucket.
Proof.
  split; [|split; [reflexivity|split; [reflexivity|]]].
  - intros (xt & xf & Ht & Hf & Hp).
    vm_compute in Ht. vm_compute in Hf.
    injection Ht as <-. injection Hf as <-.
    assert (Hin : In 3 [0; 0; 0; 0; 0; 0; 0; 0; 0; 0; 0; 0; 0; 3])
      by (simpl; tauto).
    apply (Permutation_in _ Hp) in Hin. simpl in Hin.
    repeat (destruct Hin as [Hin|Hin]; [discriminate Hin|]). exact Hin.
  - intros (H & _). discriminate H.
Qed.

(** C1, amended: for every record the two encodings agree on the first
    seven positions and hold the visiting and the home block in exchanged
    places, so their first thirteen positions are permutations of each
    other.  The last position holds the index of ["home_" + Attendance] in
    one and of ["away_" + Attendance] in the other.  For a bucketed
    attendance these decode to ["home_<bucket>"] and ["away_<bucket>"] and
    differ; for any other attendance both are the catch-all index.  So the
    whole vectors are permutations of each other exactly when the
    attendance is not bucketed, and they are the same vector exactly when,
    besides, the two blocks hold the same indices, as they do for a
    symmetric record. *)
Theorem get_inputs_flag_swaps_blocks (df_subset : list row) (r : row) :
  let il := input_levels df_subset in
  exists c v h at_home at_away,
    get_inputs il r true = Returned (c ++ v ++ h ++ [at_home])
    /\ get_inputs il r false = Returned (c ++ h ++ v ++ [at_away])
    /\ length c = 7%nat /\ length v = 3%nat /\ length h = 3%nat
    /\ v = side_block il r Vis /\ h = side_block il r Hm
    /\ Permutation (c ++ v ++ h) (c ++ h ++ v)
    /\ get_indexes (home_away il) (RStr (String.append "home_" (Attendance r)))
       = Returned at_home
    /\ get_indexes (home_away il) (RStr (String.append "away_" (Attendance r)))
       = Returned at_away
    /\ (bucketed r ->
        get_levels (home_away il) at_home
        = Returned (Some (RStr (String.append "home_" (Attendance r))))
        /\ get_levels (home_away il) at_away
           = Returned (Some (RStr (String.append "away_" (Attendance r))))
        /\ at_home <> at_away)
    /\ (~ bucketed r ->
        at_home = catch_all_index (home_away il)
        /\ at_away = catch_all_index (home_away il))
    /\ (Permutation (c ++ v ++ h ++ [at_home]) (c ++ h ++ v ++ [at_away])
        <-> ~ bucketed r)
    /\ (c ++ v ++ h ++ [at_home] = c ++ h ++ v ++ [at_away]
        <-> ~ bucketed r /\ v = h)
    /\ (symmetric r -> v = h).
Proof.
  intros il.
  exists (common_fields il r), (side_block il r Vis), (side_block il r Hm),
         (home_away_field il r true), (home_away_field il r false).
  rewrite !get_inputs_returns. unfold encoded. rewrite <- !app_assoc.
  pose proof (home_away_field_same df_subset r) as Hsame. fold il in Hsame.
  assert (Hperm : Permutation
                    (common_fields il r ++ side_block il r Vis ++ side_block il r Hm)
                    (common_fields il r ++ side_block il r Hm ++ side_block il r Vis))
    by apply Permutation_app_head, Permutation_app_comm.
  split; [reflexivity|]. split; [reflexivity|].
  split; [reflexivity|]. split; [reflexivity|]. split; [reflexivity|].
  split; [reflexivity|]. split; [reflexivity|]. split; [exact Hperm|].
  split; [reflexivity|]. split; [reflexivity|].
  split; [|split; [|split; [|split]]].
  - intros Hb. unfold get_levels, il.
    rewrite (home_away_field_decodes df_subset true Hb),
            (home_away_field_decodes df_subset false Hb).
    split; [reflexivity|]. split; [reflexivity|].
    intros He. now apply Hsame in He.
  - intros Hn. unfold il.
    now rewrite !(home_away_field_unbucketed df_subset _ Hn).
  - rewrite <- Hsame.
    pose proof (Permutation_last_entry (home_away_field il r true)
                  (home_away_field il r false) Hperm) as Hl.
    rewrite <- !app_assoc in Hl. exact Hl.
  - rewrite <- Hsame. split.
    + intros He. apply app_inv_head in He.
      unfold side_block in He |- *. cbn [app] in He.
      injection He as E1 E2 E3 E4 E5 E6 E7.
      split; [exact E7|].
      f_equal; [exact E1|]. f_equal; [exact E2|]. f_equal. exact E3.
    + intros [He Hvh]. now rewrite He, Hvh.
  - apply symmetric_side_blocks.
Qed.

(** ** The win columns *)

Lemma Qle_bool_Qlt_bool (x y : Q) : Qle_bool x y = negb (Qlt_bool y x).
Proof. unfold Qle_bool, Qlt_bool. apply Z.leb_antisym. Qed.

(** C9: on a game whose two run counts are present, [HmWin] is the
    negation of [VisWin], so exactly one of the two flags is true; when the
    runs are tied it is [HmWin]. *)
Theorem HmWin_negates_VisWin (g : game) (v h : Q) :
  g_stat g Vis sRuns = Some v ->
  g_stat g Hm sRuns = Some h ->
  HmWin_col g = negb (VisWin_col g)
  /\ (VisWin_col g = true <-> (h < v)%Q)
  /\ (HmWin_col g = true <-> (v <= h)%Q)
  /\ ((v == h)%Q -> HmWin_col g = true /\ VisWin_col g = false).
Proof.
  intros Hv Hh. unfold HmWin_col, VisWin_col. rewrite Hv, Hh. simpl.
  assert (Hlt : Qlt_bool h v = true <-> (h < v)%Q).
  { unfold Qlt_bool, Qlt. apply Z.ltb_lt. }
  repeat split.
  - apply Qle_bool_Qlt_bool.
  - apply Hlt.
  - apply Hlt.
  - apply Qle_bool_iff.
  - apply Qle_bool_iff.
  - apply Qle_bool_iff. rewrite H. apply Qle_refl.
  - rewrite <- Bool.not_true_iff_false, Hlt, H. apply Qlt_irrefl.
Qed.

Lemma HmWin_negates_VisWin_witness :
  let g := {| g_Year := None; g_Month := None; g_Day := None;
              g_DayNight := None; g_ParkID := None; g_Attendance := None;
              g_HmTmLg := None; g_UmpHID := None;
              g_VisTmYr := None; g_VisStPchID := None; g_VisMgrID := None;
              g_HmTmYr := None; g_HmStPchID := None; g_HmMgrID := None;
              g_stat := fun _ _ => Some (4 # 1) |} in
  HmWin_col g = negb (VisWin_col g)
  /\ (VisWin_col g = true <-> ((4 # 1) < (4 # 1))%Q)
  /\ (HmWin_col g = true <-> ((4 # 1) <= (4 # 1))%Q)
  /\ (((4 # 1) == (4 # 1))%Q -> HmWin_col g = true /\ VisWin_col g = false).
Proof.
  intros g. apply (@HmWin_negates_VisWin g (4 # 1) (4 # 1)); reflexivity.
Defined.

(** With a missing run count neither flag is set. *)
Lemma win_columns_of_missing_runs (g : game) :
  g_stat g Vis sRuns = None \/ g_stat g Hm sRuns = None ->
  VisWin_col g = false /\ HmWin_col g = false.
Proof.
  unfold VisWin_col, HmWin_col. intros H.
  destruct (g_stat g Vis sRuns), (g_stat g Hm sRuns); simpl; auto;
    destruct H; discriminate.
Qed.

Lemma dropna_row_wins (lg : Z * game) (r : row) :
  dropna_row lg = Some r ->
  VisWin r = VisWin_col (snd lg) /\ HmWin r = HmWin_col (snd lg)
  /\ forall sd sf, g_stat (snd lg) sd sf = Some (stat r sd sf).
Proof.
  unfold dropna_row, opt_bind. intros H.
  repeat match type of H with
         | match ?o with Some _ => _ | None => None end = Some _ =>
             destruct o; [|discriminate H]
         end.
  destruct (forallb _ all_stats) eqn:Hall; [|discriminate H].
  injection H as <-. cbn [VisWin HmWin stat]. repeat split.
  intros sd sf. rewrite forallb_forall in Hall.
  specialize (Hall (sd, sf)). cbn [fst snd] in Hall.
  destruct (g_stat (snd lg) sd sf); [reflexivity|].
  discriminate Hall. destruct sd, sf; simpl; tauto.
Qed.

(** The rows that [dropna] keeps have both run counts, so their two win
    flags are complementary. *)
Lemma dropna_win_flags (df : list (Z * game)) (r : row) :
  In r (dropna df) -> HmWin r = negb (VisWin r).
Proof.
  induction df as [|lg t IH]; simpl; [tauto|].
  destruct (dropna_row lg) as [r'|] eqn:Hrow; [|exact IH].
  intros [<-|Hin]; [|now apply IH].
  destruct (dropna_row_wins lg Hrow) as (-> & -> & Hstat).
  unfold HmWin_col, VisWin_col. rewrite !Hstat. simpl.
  apply Qle_bool_Qlt_bool.
Qed.

(** ** Masking *)

Lemma map_combine_seq {A B : Type} (f : nat * A -> B) (g : A -> B) (l : list A) :
  (forall p, f p = g (snd p)) ->
  forall a, map f (combine (seq a (length l)) l) = map g l.
Proof.
  intros Hf. induction l as [|x t IH]; intros a; simpl; [reflexivity|].
  now rewrite Hf, IH.
Qed.

Lemma mask_step_resets_all (x : list (list Z)) (u : nat -> nat -> Q) :
  (forall i j, unit_draw (u i j)) ->
  mask_step x 1 u = map (map (fun _ => 0)) x.
Proof.
  intros Hu. unfold mask_step. change (Qlt_bool 0 1) with true. cbv iota.
  unfold apply_mask. apply map_combine_seq. intros ir.
  apply map_combine_seq. intros jv.
  destruct (Hu (fst ir) (fst jv)) as [_ Hlt].
  apply Qlt_le_weak, Qle_bool_iff in Hlt. now rewrite Hlt.
Qed.

(** C4: with [mask_p = 1.0] the masking step resets every position of the
    input to index 0, whatever the draws of [np.random.rand] are: the
    result has the shape of the input and holds nothing but zeros. *)
Theorem mask_step_all_zero (x : list (list Z)) (u : nat -> nat -> Q) :
  (forall i j, unit_draw (u i j)) ->
  mask_step x 1 u = map (map (fun _ => 0)) x
  /\ Forall (Forall (eq 0)) (mask_step x 1 u).
Proof.
  intros Hu. rewrite (mask_step_resets_all x u Hu). split; [reflexivity|].
  apply Forall_forall. intros r Hr. apply in_map_iff in Hr.
  destruct Hr as (r0 & <- & _). apply Forall_forall. intros z Hz.
  apply in_map_iff in Hz. now destruct Hz as (z0 & <- & _).
Qed.

Lemma mask_step_all_zero_witness :
  mask_step [[4; 0; 7]; [1; 2; 3]] 1 (fun _ _ => (8 # 9)%Q)
  = map (map (fun _ => 0)) [[4; 0; 7]; [1; 2; 3]]
  /\ Forall (Forall (eq 0))
            (mask_step [[4; 0; 7]; [1; 2; 3]] 1 (fun _ _ => (8 # 9)%Q)).
Proof.
  apply (@mask_step_all_zero [[4; 0; 7]; [1; 2; 3]] (fun _ _ => (8 # 9)%Q)).
  intros i j. split; [discriminate | reflexivity].
Defined.

(** ** Binary targets *)

Lemma assign_column_full (n : nat) (col : list Q) :
  length col = n -> assign_column n col = Returned col.
Proof. intros <-. unfold assign_column. now rewrite Nat.eqb_refl. Qed.

Lemma mapM_ext_Returned {A B : Type} (f : A -> result B) (g : A -> B) (l : list A) :
  (forall a, In a l -> f a = Returned (g a)) ->
  mapM f l = Returned (map g l).
Proof.
  induction l as [|a t IH]; simpl; intros H; [reflexivity|].
  rewrite (H a) by now left. simpl.
  rewrite IH by (intros; apply H; now right). reflexivity.
Qed.

Lemma length_le_column (df_subset : list row) (sd : side) (sfx : suffix) (q : Q) :
  length (le_column df_subset sd sfx q) = length df_subset.
Proof. unfold le_column, series. now rewrite !length_map. Qed.

Lemma float_of_bool_one (b : bool) : float_of_bool b = 1%Q <-> b = true.
Proof. destruct b; simpl; split; intros H; try reflexivity; discriminate H. Qed.

Lemma insert_unique_Forall (P : Q -> Prop) (x : Q) (l : list Q) :
  P x -> Forall P l -> Forall P (insert_unique x l).
Proof.
  intros Hx Hl. induction Hl as [|y t Hy Ht IH]; cbn [insert_unique].
  - now constructor.
  - destruct (Qeq_bool x y); [now constructor|].
    destruct (Qle_bool x y); repeat constructor; assumption.
Qed.

Lemma insert_unique_sorted (x : Q) (l : list Q) :
  StronglySorted Qlt l -> StronglySorted Qlt (insert_unique x l).
Proof.
  induction 1 as [|y t Ht IH Hy]; cbn [insert_unique].
  - repeat constructor.
  - destruct (Qeq_bool x y) eqn:Heq; [now constructor|].
    apply Qeq_bool_neq in Heq.
    destruct (Qle_bool x y) eqn:Hle.
    + apply Qle_bool_iff in Hle.
      assert (Hlt : (x < y)%Q).
      { apply Qle_lteq in Hle. destruct Hle as [Hlt|He]; [exact Hlt|].
        now elim Heq. }
      constructor; [now constructor|]. constructor; [exact Hlt|].
      eapply Forall_impl; [|exact Hy]. intros z Hz. cbn.
      eapply Qlt_trans; eassumption.
    + assert (Hlt : (y < x)%Q).
      { apply Qnot_le_lt. intros Hc. apply Qle_bool_iff in Hc. congruence. }
      constructor; [exact IH|]. now apply insert_unique_Forall.
Qed.

(** [np.unique] returns its values in strictly increasing order. *)
Lemma np_unique_sorted (l : list Q) : StronglySorted Qlt (np_unique l).
Proof.
  unfold np_unique. induction l as [|x t IH]; cbn [fold_right].
  - constructor.
  - now apply insert_unique_sorted.
Qed.

Lemma removelast_Forall {A : Type} (P : A -> Prop) (l : list A) :
  Forall P l -> Forall P (removelast l).
Proof.
  induction 1 as [|x t Hx Ht IH]; cbn [removelast]; [constructor|].
  destruct t; [constructor|]. now constructor.
Qed.

Lemma removelast_sorted {A : Type} (R : A -> A -> Prop) (l : list A) :
  StronglySorted R l -> StronglySorted R (removelast l).
Proof.
  induction 1 as [|x t Ht IH Hx]; cbn [removelast]; [constructor|].
  destruct t as [|y t']; [constructor|].
  constructor; [exact IH|]. now apply (removelast_Forall (l := y :: t')).
Qed.

Lemma quantiles_sorted (np_quantile : list Q -> nat -> list Q)
    (df_subset : list row) (sfx : suffix) (n_q : nat) :
  StronglySorted Qlt (quantiles np_quantile df_subset sfx n_q).
Proof.
  unfold quantiles. apply removelast_sorted.
  destruct (Nat.leb _ n_q); apply np_unique_sorted.
Qed.










(** ** The perspective of a sample *)

Lemma mapMi_Returned {A B : Type} (f : nat -> A -> result B) (g : nat -> A -> B)
    (l : list A) :
  (forall k a, f k a = Returned (g k a)) ->
  forall k0,
    mapMi f k0 l
    = Returned (map (fun ka => g (fst ka) (snd ka)) (combine (seq k0 (length l)) l)).
Proof.
  intros Hf. induction l as [|a t IH]; intros k0; simpl; [reflexivity|].
  now rewrite Hf, IH.
Qed.

Lemma nth_error_combine_seq {A : Type} (l : list A) (k0 k : nat) (a : A) :
  nth_error l k = Some a ->
  nth_error (combine (seq k0 (length l)) l) k = Some ((k0 + k)%nat, a).
Proof.
  revert k0 k. induction l as [|x t IH]; intros k0 [|k] H; simpl in *;
    try discriminate.
  - injection H as ->. now rewrite Nat.add_0_r.
  - rewrite (IH (S k0) k H). f_equal. f_equal. lia.
Qed.

Lemma nth_error_combine {A B : Type} (l : list A) (l' : list B) (k : nat) (a : A) (b : B) :
  nth_error l k = Some a -> nth_error l' k = Some b ->
  nth_error (combine l l') k = Some (a, b).
Proof.
  revert l' k. induction l as [|x t IH]; intros [|y t'] [|k] Ha Hb;
    simpl in *; try discriminate.
  - now injection Ha as ->; injection Hb as ->.
  - now apply IH.
Qed.

(** Every level of the composite field is a string, so the test
    ['home' in x] of [get_sample] never fails on a decoded level, and it
    holds exactly of the levels that start with ["home_"]. *)
Lemma is_home_value_of (i : Z) :
  is_home (value_of home_away_levels i)
  = Returned (is_home_level (value_of home_away_levels i)).
Proof.
  unfold value_of. destruct (i <? 0); [reflexivity|].
  destruct (Z.to_nat i) as [|[|[|[|[|[|[|k]]]]]]]; try reflexivity.
  destruct k; reflexivity.
Qed.

Lemma pick_int_of_bool {A : Type} (vis hm : A) (b : bool) :
  pick vis hm (int_of_bool b) = if b then hm else vis.
Proof. destruct b; reflexivity. Qed.

(** What a call of [get_sample] that returns has computed: the sampled
    rows are not empty, [x] is the masked stack of their encodings, and
    'Win' picks a win column by the decoded composite field of each
    encoding. *)
Lemma get_sample_returned
    (df0 df : list row) (tdfs : list (suffix * (target_df * target_df)))
    (n : option nat) (idxs : option (list Z)) (mask_p : Q) (rnd : randomness)
    (x : list (list Z)) (t : targets_t) :
  let il := input_levels df0 in
  get_sample il df tdfs n idxs mask_p rnd = Returned (x, t) ->
  exists s rows,
    match idxs with Some l => iloc df l | None => sample df n rnd end = Returned s
    /\ rows = map (fun ka => encoded il (snd ka)
                                (Qle_bool (rand rnd (fst ka)) (1 # 2)))
                  (combine (seq 0 (length s)) s)
    /\ rows <> []
    /\ x = mask_step rows mask_p (np_rand rnd)
    /\ Win t
       = map (fun p => float_of_bool (pick (VisWin (fst p)) (HmWin (fst p)) (snd p)))
             (combine s
                (map (fun xr => int_of_bool
                                  (is_home_level
                                     (value_of home_away_levels (last xr 0))))
                     rows)).
Proof.
  intros il H. unfold get_sample in H.
  destruct (match idxs with Some l => iloc df l | None => sample df n rnd end)
    as [s|e] eqn:Hs; cbn [bind] in H; [|discriminate H].
  rewrite (mapMi_Returned _ (fun k r => encoded il r (Qle_bool (rand rnd k) (1 # 2))))
    in H by (intros; apply get_inputs_returns).
  cbn [bind] in H.
  set (rows := map _ (combine (seq 0 (length s)) s)) in H.
  exists s, rows. split; [reflexivity|]. split; [reflexivity|].
  destruct (np_stack rows) as [x0|e] eqn:Hx; cbn [bind] in H; [|discriminate H].
  assert (Hx0 : x0 = rows /\ rows <> []).
  { unfold np_stack in Hx. destruct rows; [discriminate Hx|].
    injection Hx as <-. split; [reflexivity|discriminate]. }
  destruct Hx0 as [-> Hne].
  unfold get_levels_seq, get_levels in H. rewrite mapM_Returned in H.
  cbn [bind] in H.
  rewrite (mapM_ext_Returned _ is_home_level) in H.
  2:{ intros a Ha. apply in_map_iff in Ha. destruct Ha as (i & <- & _).
      apply is_home_value_of. }
  cbn [bind] in H.
  match type of H with
  | bind ?c _ = _ => destruct c as [tos|e]; cbn [bind] in H; [|discriminate H]
  end.
  injection H as Hx' Ht. subst t x. cbn [Win].
  rewrite !map_map. repeat split. exact Hne.
Qed.

(** C2, as stated, fails: [game_no_bucket] is sampled and, the draw being
    0.25, encoded with the home side last; its composite field is the
    catch-all index 6, the same as under the other flag, and decodes to
    ["OTHER"], so the perspective cannot be told from it; and the 'Win'
    target is [VisWin], the flag of the visitors, although the home side
    was put last. *)
Lemma get_sample_perspective_lost :
  Qle_bool (rand draws_quarter 0) (1 # 2) = true
  /\ get_inputs (input_levels [game_no_bucket]) game_no_bucket true
     = Returned [0; 0; 0; 0; 0; 0; 0; 0; 0; 0; 0; 0; 0; 6]
  /\ get_inputs (input_levels [game_no_bucket]) game_no_bucket false
     = Returned [0; 0; 0; 0; 0; 0; 0; 0; 0; 0; 0; 0; 0; 6]
  /\ get_levels (home_away (input_levels [game_no_bucket])) 6
     = Returned (Some OTHER)
  /\ is_home_level (Some OTHER) = false
  /\ get_sample (input_levels [game_no_bucket]) [game_no_bucket] [] None
                (Some [0]) 0 draws_quarter
     = Returned ([[0; 0; 0; 0; 0; 0; 0; 0; 0; 0; 0; 0; 0; 6]],
                 {| Win := [float_of_bool (VisWin game_no_bucket)];
                    team_opp := [] |})
  /\ VisWin game_no_bucket = false /\ HmWin game_no_bucket = true.
Proof. repeat split; reflexivity. Qed.

(** C2, amended: for every record of a sample that [get_sample] returns,
    the composite field of the record's encoded vector (the vector before
    masking, which is the returned one when nothing is masked) decodes to a
    level, and the record's 'Win' target is [HmWin] when that level starts
    with ["home_"] and [VisWin] otherwise.  On a bucketed attendance the
    level starts with ["home_"] exactly when the record was encoded with
    the home side last, so the perspective is recovered from it; on any
    other attendance the level is ["OTHER"] under both flags, and the
    target is [VisWin] whatever the perspective was. *)
Theorem get_sample_win_follows_perspective
    (df0 df : list row) (tdfs : list (suffix * (target_df * target_df)))
    (n : option nat) (idxs : option (list Z)) (mask_p : Q) (rnd : randomness)
    (x : list (list Z)) (t : targets_t) :
  let il := input_levels df0 in
  get_sample il df tdfs n idxs mask_p rnd = Returned (x, t) ->
  exists s,
    match idxs with Some l => iloc df l | None => sample df n rnd end = Returned s
    /\ length (Win t) = length s
    /\ forall (k : nat) (r : row),
         nth_error s k = Some r ->
         let home_tm_last := Qle_bool (rand rnd k) (1 # 2) in
         exists enc lvl,
           get_inputs il r home_tm_last = Returned enc
           /\ get_levels (home_away il) (last enc 0) = Returned lvl
           /\ (bucketed r -> is_home_level lvl = home_tm_last)
           /\ (~ bucketed r ->
               lvl = Some OTHER
               /\ nth_error (Win t) k = Some (float_of_bool (VisWin r)))
           /\ nth_error (Win t) k
              = Some (float_of_bool (if is_home_level lvl then HmWin r
                                     else VisWin r))
           /\ (Qlt_bool 0 mask_p = false -> nth_error x k = Some enc).
Proof.
  intros il H.
  destruct (get_sample_returned _ _ _ _ _ _ _ H) as (s & rows & Hs & Hrows & _ & Hx & HW).
  fold il in Hrows.
  exists s. split; [exact Hs|].
  assert (Hnth : forall k r, nth_error s k = Some r ->
            nth_error rows k
            = Some (encoded il r (Qle_bool (rand rnd k) (1 # 2)))).
  { intros k r Hr. rewrite Hrows.
    rewrite nth_error_map, (nth_error_combine_seq s 0 k Hr). reflexivity. }
  split.
  - rewrite HW, length_map, length_combine, length_map, Hrows.
    rewrite length_map, length_combine, length_seq. lia.
  - intros k r Hr. set (home_tm_last := Qle_bool (rand rnd k) (1 # 2)).
    exists (encoded il r home_tm_last),
           (value_of (home_away il) (home_away_field il r home_tm_last)).
    split; [apply get_inputs_returns|].
    split; [unfold get_levels; now rewrite last_encoded|].
    assert (HWk : nth_error (Win t) k
                  = Some (float_of_bool
                            (if is_home_level
                                  (value_of (home_away il)
                                            (home_away_field il r home_tm_last))
                             then HmWin r else VisWin r))).
    { rewrite HW, nth_error_map.
      erewrite nth_error_combine;
        [| exact Hr | rewrite nth_error_map, (Hnth k r Hr); reflexivity].
      cbn [option_map fst snd]. rewrite pick_int_of_bool, last_encoded.
      reflexivity. }
    split; [|split; [|split]].
    + intros Hb. unfold il. rewrite (home_away_field_decodes df0 home_tm_last Hb).
      destruct (bucketed_cases Hb) as [-> | [-> | ->]];
        destruct home_tm_last; reflexivity.
    + intros Hn. rewrite HWk. unfold il.
      rewrite (home_away_field_unbucketed df0 home_tm_last Hn).
      split; reflexivity.
    + exact HWk.
    + intros Hm. rewrite Hx. unfold mask_step. rewrite Hm. now apply Hnth.
Qed.

(** With [mask_p = 1.0] every position of the returned [x] is 0. *)
Lemma get_sample_fully_masked
    (df0 df : list row) (tdfs : list (suffix * (target_df * target_df)))
    (n : option nat) (idxs : option (list Z)) (rnd : randomness)
    (x : list (list Z)) (t : targets_t) :
  (forall i j, unit_draw (np_rand rnd i j)) ->
  get_sample (input_levels df0) df tdfs n idxs 1 rnd = Returned (x, t) ->
  Forall (Forall (eq 0)) x.
Proof.
  intros Hu H.
  destruct (get_sample_returned _ _ _ _ _ _ _ H) as (s & rows & _ & _ & _ & -> & _).
  rewrite (mask_step_resets_all rows (np_rand rnd) Hu).
  apply Forall_forall. intros r Hr. apply in_map_iff in Hr.
  destruct Hr as (r0 & <- & _). apply Forall_forall. intros z Hz.
  apply in_map_iff in Hz. now destruct Hz as (z0 & <- & _).
Qed.

Lemma get_sample_win_follows_perspective_witness :
  exists s,
    iloc [game_2019] [0] = Returned s
    /\ length (Win {| Win := [1%Q]; team_opp := [] |}) = length s
    /\ forall (k : nat) (r : row),
         nth_error s k = Some r ->
         let home_tm_last := Qle_bool (rand draws_quarter k) (1 # 2) in
         exists enc lvl,
           get_inputs (input_levels [game_2019]) r home_tm_last = Returned enc
           /\ get_levels (home_away (input_levels [game_2019])) (last enc 0)
              = Returned lvl
           /\ (bucketed r -> is_home_level lvl = home_tm_last)
           /\ (~ bucketed r ->
               lvl = Some OTHER
               /\ nth_error (Win {| Win := [1%Q]; team_opp := [] |}) k
                  = Some (float_of_bool (VisWin r)))
           /\ nth_error (Win {| Win := [1%Q]; team_opp := [] |}) k
              = Some (float_of_bool (if is_home_level lvl then HmWin r
                                     else VisWin r))
           /\ (Qlt_bool 0 0 = false ->
               nth_error [[0; 0; 0; 0; 0; 0; 0; 0; 0; 0; 0; 0; 0; 3]] k = Some enc).
Proof.
  apply (@get_sample_win_follows_perspective
           [game_2019] [game_2019] [] None (Some [0]) 0 draws_quarter
           [[0; 0; 0; 0; 0; 0; 0; 0; 0; 0; 0; 0; 0; 3]]
           {| Win := [1%Q]; team_opp := [] |}).
  reflexivity.
Defined.

(** ** The HTML table parser *)

Module WebScraperFacts.
Import WebScraper.

(** The first loop computes the width of the first data row, the number
    of data rows and the header. *)
Lemma count_rows_from (table : Tag) (c : counters) :
  fold_left count_row table c
  = {| n_columns := if Nat.eqb (n_columns c) 0 then first_row_width table
                    else n_columns c;
       n_rows := n_rows c + length (data_rows table);
       column_names := match column_names c with
                       | [] => header table
                       | names => names
                       end |}.
Proof.
  revert c. induction table as [|row t IH]; intros c.
  - simpl. unfold first_row_width, header; simpl.
    destruct c as [nc nr names]; simpl.
    rewrite Nat.add_0_r. destruct (Nat.eqb_spec nc 0); destruct names; congruence.
  - cbn [fold_left]. rewrite IH; clear IH.
    unfold count_row, first_row_width, header, data_rows. cbn [filter].
    destruct c as [nc nr names]; cbn [n_columns n_rows column_names].
    destruct (td row) as [|d ds] eqn:Htd, (th row) as [|h hs] eqn:Hth,
             names as [|nm nms], nc as [|nc];
      cbn; f_equal; try lia; try reflexivity;
      try rewrite Htd; try rewrite Hth; reflexivity.
Qed.

Lemma count_table_eq (table : Tag) :
  count_table table
  = {| n_columns := first_row_width table;
       n_rows := length (data_rows table);
       column_names := header table |}.
Proof. unfold count_table. now rewrite count_rows_from. Qed.

Lemma length_set_nth {A : Type} (i : nat) (x : A) (l : list A) :
  length (set_nth i x l) = length l.
Proof.
  revert i. induction l as [|a t IH]; intros [|i]; simpl; auto.
Qed.

Lemma Forall_set_nth {A : Type} (P : A -> Prop) (i : nat) (x : A) (l : list A) :
  P x -> Forall P l -> Forall P (set_nth i x l).
Proof.
  intros Hx Hl. revert i. induction Hl as [|a t Ha Ht IH]; intros [|i]; simpl;
    constructor; auto.
Qed.

Lemma empty_frame_shaped (cols : list col_label) (n : nat) :
  shaped (length cols) n (empty_frame cols n)
  /\ columns (empty_frame cols n) = cols.
Proof.
  unfold shaped, empty_frame; simpl. rewrite repeat_length.
  repeat split. apply Forall_forall. intros r Hr.
  apply repeat_spec in Hr. subst r. apply repeat_length.
Qed.

Lemma iat_set_shaped (w h : nat) (df : DataFrame) (i j : nat) (v : cell) :
  shaped w h df -> (i < h)%nat -> (j < w)%nat ->
  exists df', iat_set df i j v = Returned df'
              /\ shaped w h df' /\ columns df' = columns df.
Proof.
  intros [Hh Hw] Hi Hj. unfold iat_set.
  destruct (nth_error (values df) i) as [r|] eqn:Hr.
  - assert (Hlen : length r = w).
    { rewrite Forall_forall in Hw. apply Hw. eapply nth_error_In; eassumption. }
    rewrite Hlen. apply Nat.ltb_lt in Hj. rewrite Hj.
    eexists. split; [reflexivity|]. split; [|reflexivity].
    split; cbn [values].
    + now rewrite length_set_nth.
    + apply Forall_set_nth; [now rewrite length_set_nth|assumption].
  - apply nth_error_None in Hr. lia.
Qed.

Lemma fill_row_shaped (w h : nat) (cols : list string) :
  forall (df : DataFrame) (row_marker column_marker : nat),
    shaped w h df ->
    (cols <> [] -> row_marker < h)%nat ->
    (column_marker + length cols <= w)%nat ->
    exists df', fill_row df row_marker column_marker cols = Returned df'
                /\ shaped w h df' /\ columns df' = columns df.
Proof.
  induction cols as [|c t IH]; intros df rm cm Hs Hrm Hcm; cbn [fill_row].
  - eauto.
  - cbn [length] in Hcm.
    destruct (@iat_set_shaped w h df rm cm (Text c) Hs) as (df1 & -> & Hs1 & Hc1);
      [apply Hrm; discriminate | lia |].
    cbn [bind].
    destruct (IH df1 rm (S cm) Hs1) as (df2 & -> & Hs2 & Hc2);
      [intros _; apply Hrm; discriminate | lia |].
    exists df2. repeat split; try apply Hs2. congruence.
Qed.

Lemma fill_shaped (w h : nat) (table : Tag) :
  forall (df : DataFrame) (row_marker : nat),
    shaped w h df ->
    (row_marker + length (data_rows table) <= h)%nat ->
    (forall row, In row table -> length (td row) <= w)%nat ->
    exists df', fill df row_marker table = Returned df'
                /\ shaped w h df' /\ columns df' = columns df.
Proof.
  induction table as [|row t IH]; intros df rm Hs Hrm Hw; cbn [fill].
  - eauto.
  - unfold data_rows in Hrm. cbn [filter] in Hrm. fold (data_rows t) in Hrm.
    destruct (@fill_row_shaped w h (td row) df rm 0%nat Hs) as (df1 & -> & Hs1 & Hc1).
    + intros Hne. destruct (td row); [congruence|]. cbn in Hrm. lia.
    + cbn. apply Hw. now left.
    + cbn [bind].
      destruct (IH df1 (if Nat.ltb 0 (length (td row)) then S rm else rm) Hs1)
        as (df2 & -> & Hs2 & Hc2).
      * destruct (Nat.ltb 0 (length (td row))); cbn [length] in Hrm; lia.
      * intros r Hr. apply Hw. now right.
      * exists df2. repeat split; try apply Hs2. congruence.
Qed.

Lemma all_some_map_Forall {A B : Type} (f : A -> option B)
    (P : A -> Prop) (R : B -> Prop) :
  (forall a b, P a -> f a = Some b -> R b) ->
  forall (l : list A) (vs : list B),
    Forall P l -> all_some (map f l) = Some vs ->
    Forall R vs /\ length vs = length l.
Proof.
  intros Hf. induction l as [|a t IH]; intros vs Hl Hvs; cbn in Hvs.
  - injection Hvs as <-. split; [constructor|reflexivity].
  - inversion Hl as [|? ? Ha Ht]; subst.
    destruct (f a) as [b|] eqn:Hb; [|discriminate Hvs].
    destruct (all_some (map f t)) as [bs|] eqn:Hbs; [|discriminate Hvs].
    cbn in Hvs. injection Hvs as <-.
    destruct (IH bs Ht eq_refl) as [HR Hlen].
    split; [constructor; eauto|cbn; now rewrite Hlen].
Qed.

Lemma astype_float_row_length (to_float : string -> option pyfloat)
    (js : list nat) (r r' : list cell) :
  astype_float_row to_float js r = Some r' -> length r' = length r.
Proof.
  unfold astype_float_row. intros H.
  destruct (@all_some_map_Forall _ _ _ (fun _ => True) (fun _ => True)
              (fun _ _ _ _ => I) _ _
              (proj2 (Forall_forall _ _) (fun _ _ => I)) H) as [_ Hlen].
  now rewrite Hlen, length_combine, length_seq, Nat.min_id.
Qed.

Lemma convert_column_shaped (to_float : string -> option pyfloat) (w h : nat)
    (df : DataFrame) (column : col_label) :
  shaped w h df ->
  shaped w h (convert_column to_float df column)
  /\ columns (convert_column to_float df column) = columns df.
Proof.
  intros [Hh Hw]. unfold convert_column.
  destruct (all_some _) as [vs|] eqn:Hvs; [|now repeat split].
  destruct (@all_some_map_Forall _ _ _ (fun r => length r = w)
              (fun r => length r = w)
              (fun r r' Hr Hr' =>
                 eq_trans (astype_float_row_length _ _ _ Hr') Hr)
              _ _ Hw Hvs) as [HR Hlen].
  repeat split; cbn [values]; [congruence|assumption].
Qed.

Lemma fold_convert_column_shaped (to_float : string -> option pyfloat) (w h : nat)
    (labels : list col_label) :
  forall df : DataFrame,
    shaped w h df ->
    shaped w h (fold_left (convert_column to_float) labels df)
    /\ columns (fold_left (convert_column to_float) labels df) = columns df.
Proof.
  induction labels as [|l t IH]; intros df Hs; cbn [fold_left]; [now split|].
  destruct (convert_column_shaped to_float l Hs) as [Hs1 Hc1].
  destruct (IH _ Hs1) as [Hs2 Hc2]. split; [assumption|congruence].
Qed.

Lemma convert_shaped (to_float : string -> option pyfloat) (w h : nat) (df : DataFrame) :
  shaped w h df ->
  shaped w h (convert to_float df)
  /\ columns (convert to_float df) = columns df.
Proof. apply fold_convert_column_shaped. Qed.

Lemma expected_columns_length (table : Tag) :
  ~ titles_mismatch table ->
  length (expected_columns table) = first_row_width table.
Proof.
  unfold titles_mismatch, expected_columns. intros Hn.
  destruct (header table) as [|nm nms] eqn:Hh.
  - now rewrite length_map, length_seq.
  - rewrite length_map.
    destruct (Nat.eq_dec (length (nm :: nms)) (first_row_width table));
      [assumption|].
    exfalso. apply Hn. split; [discriminate|assumption].
Qed.

(** A row with more cells than the frame has columns: [df.iat] refuses
    the first cell past the last column. *)
Lemma iat_set_overflow (w h : nat) (df : DataFrame) (i j : nat) (v : cell) :
  shaped w h df -> (w <= j)%nat -> iat_set df i j v = Raised IndexError.
Proof.
  intros [Hh Hw] Hj. unfold iat_set.
  destruct (nth_error (values df) i) as [r|] eqn:Hr; [|reflexivity].
  assert (Hlen : length r = w).
  { rewrite Forall_forall in Hw. apply Hw. eapply nth_error_In; eassumption. }
  rewrite Hlen. apply Nat.ltb_ge in Hj. now rewrite Hj.
Qed.

Lemma fill_row_overflow (w h : nat) (cols : list string) :
  forall (df : DataFrame) (row_marker column_marker : nat),
    shaped w h df -> (row_marker < h)%nat ->
    (column_marker <= w < column_marker + length cols)%nat ->
    fill_row df row_marker column_marker cols = Raised IndexError.
Proof.
  induction cols as [|c t IH]; intros df rm cm Hs Hrm Hcm; cbn [fill_row length] in *.
  - lia.
  - destruct (Nat.eq_dec cm w) as [->|Hne].
    + now rewrite (@iat_set_overflow w h df rm w (Text c) Hs (Nat.le_refl w)).
    + destruct (@iat_set_shaped w h df rm cm (Text c) Hs) as (df1 & -> & Hs1 & _);
        [assumption | lia |].
      cbn [bind]. apply IH; [assumption | assumption | lia].
Qed.

Lemma fill_overflow (w h : nat) (table : Tag) :
  forall (df : DataFrame) (row_marker : nat),
    shaped w h df ->
    (row_marker + length (data_rows table) <= h)%nat ->
    (exists row, In row table /\ w < length (td row))%nat ->
    fill df row_marker table = Raised IndexError.
Proof.
  induction table as [|row t IH]; intros df rm Hs Hrm (wide & Hin & Hwide).
  - destruct Hin.
  - cbn [fill]. unfold data_rows in Hrm. cbn [filter] in Hrm.
    fold (data_rows t) in Hrm.
    destruct (Nat.lt_ge_cases w (length (td row))) as [Hlt|Hge].
    + rewrite (@fill_row_overflow w h (td row) df rm 0%nat Hs); [reflexivity| |lia].
      destruct (td row); cbn in *; lia.
    + destruct (@fill_row_shaped w h (td row) df rm 0%nat Hs) as (df1 & -> & Hs1 & _).
      * intros Hne. destruct (td row); [congruence|]. cbn in Hrm. lia.
      * cbn. exact Hge.
      * cbn [bind]. apply IH; [assumption| |].
        -- destruct (Nat.ltb 0 (length (td row))); cbn [length] in Hrm; lia.
        -- exists wide. split; [|assumption].
           destruct Hin as [<-|Hin]; [lia|assumption].
Qed.

(** Past the safeguard on the column titles the parser fills and converts
    a frame of the expected columns. *)
Lemma html_table_to_df_titles_ok (to_float : string -> option pyfloat) (table : Tag) :
  ~ titles_mismatch table ->
  html_table_to_df to_float table
  = (df <- fill (empty_frame (expected_columns table) (length (data_rows table)))
                0 table ;;
     Returned (convert to_float df)).
Proof.
  intros Hn. unfold html_table_to_df. rewrite count_table_eq.
  cbn [n_columns n_rows column_names].
  pose proof (expected_columns_length Hn) as Hlen.
  unfold expected_columns in *. destruct (header table) as [|nm nms].
  - reflexivity.
  - rewrite length_map in Hlen.
    change (Nat.ltb 0 (length (nm :: nms))) with true. cbn [andb].
    rewrite Hlen, Nat.eqb_refl. reflexivity.
Qed.

(** Without a title mismatch, a row that holds more [td] cells than the
    first data row ends the parse with the IndexError of [df.iat]. *)
Lemma html_table_to_df_wide_row (to_float : string -> option pyfloat) (table : Tag) :
  ~ titles_mismatch table ->
  (exists row, In row table /\ first_row_width table < length (td row))%nat ->
  html_table_to_df to_float table = Raised IndexError.
Proof.
  intros Hn Hwide. rewrite (html_table_to_df_titles_ok to_float Hn).
  destruct (empty_frame_shaped (expected_columns table) (length (data_rows table)))
    as [Hs _].
  rewrite (expected_columns_length Hn) in Hs.
  rewrite (@fill_overflow _ _ table _ 0%nat Hs); [reflexivity|cbn; lia|exact Hwide].
Qed.

(** C10, as stated, fails: a table without header whose second row has
    more cells than its first makes the parser raise (an IndexError of
    [df.iat]) although no column title mismatches. *)
Lemma html_table_to_df_raises_without_titles :
  ~ (raises (html_table_to_df (fun _ => None)
               [ {| td := ["1"]; th := [] |};
                 {| td := ["2"; "3"]; th := [] |} ])
     <-> titles_mismatch [ {| td := ["1"]; th := [] |};
                           {| td := ["2"; "3"]; th := [] |} ]).
Proof.
  intros [Hraise _].
  destruct Hraise as [Hne _].
  - exists IndexError. reflexivity.
  - apply Hne. reflexivity.
Qed.

(** C10, amended: [html_table_to_df] raises its exception whenever the
    table has header names whose number differs from the number of [td]
    cells of the first data row; when it has none such and no row holds
    more [td] cells than the first data row, it returns a frame with one
    row per [tr] element that contains [td] cells, whose columns are named
    by the [th] texts when there are any and by the positions otherwise. *)
Theorem html_table_to_df_contract (to_float : string -> option pyfloat) (table : Tag) :
  (titles_mismatch table ->
   html_table_to_df to_float table
   = Raised (Exception "Column titles do not match the number of columns"))
  /\ (~ titles_mismatch table ->
      (forall row, In row table -> length (td row) <= first_row_width table)%nat ->
      exists df,
        html_table_to_df to_float table = Returned df
        /\ columns df = expected_columns table
        /\ length (values df) = length (data_rows table)
        /\ Forall (fun r => length r = length (columns df)) (values df)).
Proof.
  split.
  - intros [Hne Hlen]. unfold html_table_to_df. rewrite count_table_eq.
    cbn [n_columns n_rows column_names].
    destruct (header table) as [|nm nms]; [congruence|].
    apply Nat.eqb_neq in Hlen. rewrite Hlen. reflexivity.
  - intros Hn Hw. rewrite (html_table_to_df_titles_ok to_float Hn).
    pose proof (expected_columns_length Hn) as Hlen.
    destruct (empty_frame_shaped (expected_columns table) (length (data_rows table)))
      as [Hs Hc].
    rewrite Hlen in Hs.
    destruct (@fill_shaped _ _ table _ 0%nat Hs) as (df1 & -> & Hs1 & Hc1);
      [cbn; lia | exact Hw |].
    cbn [bind].
    destruct (convert_shaped to_float Hs1) as [[Hh2 Hw2] Hc2].
    eexists. split; [reflexivity|].
    assert (Hce : columns (convert to_float df1) = expected_columns table)
      by congruence.
    repeat split; [exact Hce | exact Hh2 |].
    rewrite Hce, Hlen. exact Hw2.
Qed.

End WebScraperFacts.

(** ** Worked examples *)

(** The scenario of the specification: from [a,a,a,b,b,b,c] with
    [min_obs = 3] the levels are [a, b, OTHER]. *)
Example levels_of_scenario :
  levels (InputLevels_init
            [RStr "a"; RStr "a"; RStr "a"; RStr "b"; RStr "b"; RStr "b"; RStr "c"] 3)
  = [RStr "a"; RStr "b"; OTHER].
Proof. reflexivity. Qed.

Example get_indexes_of_scenario :
  let e := InputLevels_init
             [RStr "a"; RStr "a"; RStr "a"; RStr "b"; RStr "b"; RStr "b"; RStr "c"] 3 in
  get_indexes e (RStr "c") = Returned 2 /\ get_indexes e (RStr "a") = Returned 0.
Proof. split; reflexivity. Qed.

(** An empty array gives the vocabulary of the catch-all alone. *)
Example levels_of_nothing (m : nat) : levels (InputLevels_init [] m) = [OTHER].
Proof. reflexivity. Qed.

Example levels_of_home_away :
  levels home_away_levels
  = [RStr "away_low"; RStr "away_med"; RStr "away_high";
     RStr "home_low"; RStr "home_med"; RStr "home_high"; OTHER].
Proof. reflexivity. Qed.

Example get_inputs_of_game_2019 :
  get_inputs (input_levels [game_2019]) game_2019 true
  = Returned [0; 0; 0; 0; 0; 0; 0; 0; 0; 0; 0; 0; 0; 3]
  /\ get_inputs (input_levels [game_2019]) game_2019 false
     = Returned [0; 0; 0; 0; 0; 0; 0; 0; 0; 0; 0; 0; 0; 0].
Proof. split; reflexivity. Qed.

Example np_unique_sorts :
  np_unique [3 # 1; 1 # 1; 2 # 1; 3 # 1; 1 # 1]%Q = [1 # 1; 2 # 1; 3 # 1]%Q.
Proof. reflexivity. Qed.

(** The runs of [game_2019] are 3 and 5: the largest value is dropped and
    the one threshold left is 3. *)
Example quantiles_of_game_2019 (np_quantile : list Q -> nat -> list Q) :
  quantiles np_quantile [game_2019] sRuns 10 = [3 # 1]%Q.
Proof. reflexivity. Qed.

(** A masked sample: every draw of [np.random.rand] is 0.5, which masks
    nothing at [mask_p = 0.15] and everything at [mask_p = 0.5]. *)
Example get_sample_of_game_2019 :
  get_sample (input_levels [game_2019]) [game_2019] [] None (Some [0])
             (15 # 100) draws_quarter
  = Returned ([[0; 0; 0; 0; 0; 0; 0; 0; 0; 0; 0; 0; 0; 3]],
              {| Win := [1%Q]; team_opp := [] |})
  /\ get_sample (input_levels [game_2019]) [game_2019] [] None (Some [0])
                (1 # 2) draws_quarter
     = Returned ([[0; 0; 0; 0; 0; 0; 0; 0; 0; 0; 0; 0; 0; 0]],
                 {| Win := [1%Q]; team_opp := [] |}).
Proof. split; reflexivity. Qed.

(** A table with a header row and two data rows, the second one short. *)
Example html_table_to_df_of_table :
  WebScraper.html_table_to_df (fun _ => None)
    [ {| WebScraper.td := []; WebScraper.th := ["Team"; "Runs"] |};
      {| WebScraper.td := ["BOS"; "5"]; WebScraper.th := [] |};
      {| WebScraper.td := ["NYA"]; WebScraper.th := [] |} ]
  = Returned
      {| WebScraper.columns := [WebScraper.Name "Team"; WebScraper.Name "Runs"];
         WebScraper.values :=
           [ [WebScraper.Text "BOS"; WebScraper.Text "5"];
             [WebScraper.Text "NYA"; WebScraper.Number WebScraper.NaN] ] |}.
Proof. reflexivity. Qed.

(** * Further properties *)

(** ** Lists *)

Lemma nth_error_map_combine_seq {A B : Type} (f : nat * A -> B) (l : list A)
    (a j : nat) :
  nth_error (map f (combine (seq a (length l)) l)) j
  = option_map (fun c => f ((a + j)%nat, c)) (nth_error l j).
Proof.
  rewrite nth_error_map.
  destruct (nth_error l j) as [c|] eqn:Hc.
  - now rewrite (nth_error_combine_seq l a j Hc).
  - apply nth_error_None in Hc.
    assert (H : nth_error (combine (seq a (length l)) l) j = None).
    { apply nth_error_None. rewrite length_combine, length_seq. lia. }
    now rewrite H.
Qed.

Lemma mapM_raises_In {A B : Type} (f : A -> result B) (l : list A) (a : A) :
  In a l -> raises (f a) -> raises (mapM f l).
Proof.
  induction l as [|b t IH]; intros Hin Hr; [destruct Hin|].
  cbn [mapM]. destruct (f b) as [y|e] eqn:Hb; cbn [bind].
  - destruct Hin as [->|Hin].
    + destruct Hr as [e He]. congruence.
    + destruct (IH Hin Hr) as [e He]. rewrite He. now exists e.
  - now exists e.
Qed.

(** A loop whose turns can only fail with [e0] fails with [e0] when one
    turn does. *)
Lemma mapM_Raised_In {A B : Type} (f : A -> result B) (e0 : exn)
    (l : list A) (a : A) :
  (forall b e, f b = Raised e -> e = e0) ->
  In a l -> f a = Raised e0 -> mapM f l = Raised e0.
Proof.
  intros Hf. induction l as [|b t IH]; intros Hin Ha; [destruct Hin|].
  cbn [mapM]. destruct (f b) as [y|e] eqn:Hb; cbn [bind].
  - destruct Hin as [->|Hin]; [congruence|]. now rewrite (IH Hin Ha).
  - now rewrite (Hf b e Hb).
Qed.

Lemma mapM_Forall2 {A B : Type} (f : A -> result B) (l : list A) (m : list B) :
  mapM f l = Returned m -> Forall2 (fun a b => f a = Returned b) l m.
Proof.
  revert m. induction l as [|a t IH]; intros m H; cbn [mapM] in H.
  - injection H as <-. constructor.
  - destruct (f a) as [b|e] eqn:Ha; cbn [bind] in H; [|discriminate H].
    destruct (mapM f t) as [bs|e] eqn:Ht; cbn [bind] in H; [|discriminate H].
    injection H as <-. constructor; [assumption|now apply IH].
Qed.

Lemma Forall2_nth_error {A B : Type} (R : A -> B -> Prop) (l : list A) (m : list B) :
  Forall2 R l m ->
  forall k a, nth_error l k = Some a -> exists b, nth_error m k = Some b /\ R a b.
Proof.
  induction 1 as [|a0 b0 l m H0 H IH]; intros [|k] a Ha; cbn in *;
    try discriminate.
  - injection Ha as <-. eauto.
  - now apply IH.
Qed.

(** ** Masking *)

(** A position of [x] is reset to 0 exactly when [mask_p > 0] and its draw
    is at most [mask_p]; every other position keeps its index, and no
    position is added or removed. *)
Lemma mask_step_entry (x : list (list Z)) (mask_p : Q) (u : nat -> nat -> Q)
    (i j : nat) :
  entry (mask_step x mask_p u) i j
  = option_map (fun v => if Qlt_bool 0 mask_p && Qle_bool (u i j) mask_p
                         then 0 else v)
               (entry x i j).
Proof.
  unfold mask_step, entry. destruct (Qlt_bool 0 mask_p); cbn [andb].
  - unfold apply_mask. rewrite nth_error_map_combine_seq.
    destruct (nth_error x i) as [r|]; cbn [option_map fst snd]; [|reflexivity].
    now rewrite nth_error_map_combine_seq.
  - destruct (nth_error x i) as [r|]; [|reflexivity].
    now destruct (nth_error r j).
Qed.

Lemma mask_step_shape (x : list (list Z)) (mask_p : Q) (u : nat -> nat -> Q) :
  map (@length Z) (mask_step x mask_p u) = map (@length Z) x.
Proof.
  unfold mask_step. destruct (Qlt_bool 0 mask_p); [|reflexivity].
  unfold apply_mask. rewrite map_map.
  rewrite (map_combine_seq _ (@length Z)); [reflexivity|].
  intros [k r]. cbn [fst snd].
  now rewrite length_map, length_combine, length_seq, Nat.min_id.
Qed.

Lemma mask_step_none (x : list (list Z)) (u : nat -> nat -> Q) :
  mask_step x 0 u = x.
Proof. reflexivity. Qed.

(** ** The sample builder *)

(** X8: Sampling with a mask is sampling without one, followed by the masking
    of [x]: whether the call returns, and the targets it returns, do not
    depend on [mask_p] nor on the draws of the mask. *)
Theorem get_sample_mask_after (il : input_levels_t) (df : list row)
    (tdfs : list (suffix * (target_df * target_df)))
    (n : option nat) (idxs : option (list Z)) (mask_p : Q) (rnd : randomness) :
  get_sample il df tdfs n idxs mask_p rnd
  = (p <- get_sample il df tdfs n idxs 0 rnd ;;
     Returned (mask_step (fst p) mask_p (np_rand rnd), snd p)).
Proof.
  unfold get_sample.
  destruct (match idxs with Some l => iloc df l | None => sample df n rnd end)
    as [s|e]; cbn [bind]; [|reflexivity].
  destruct (mapMi _ 0 s) as [rows|e]; cbn [bind]; [|reflexivity].
  destruct (np_stack rows) as [x0|e]; cbn [bind]; [|reflexivity].
  destruct (get_levels_seq _ _) as [lv|e]; cbn [bind]; [|reflexivity].
  destruct (mapM is_home lv) as [homes|e]; cbn [bind]; [|reflexivity].
  destruct (mapM _ tdfs) as [tos|e]; cbn [bind]; reflexivity.
Qed.

(** The perspective index of a sampled row: 1 when the composite field of
    its encoding decodes to a level with "home" in it. *)
Lemma get_sample_inversion
    (df0 df : list row) (tdfs : list (suffix * (target_df * target_df)))
    (n : option nat) (idxs : option (list Z)) (mask_p : Q) (rnd : randomness)
    (x : list (list Z)) (t : targets_t) :
  let il := input_levels df0 in
  get_sample il df tdfs n idxs mask_p rnd = Returned (x, t) ->
  exists s rows vis_hm_idx,
    match idxs with Some l => iloc df l | None => sample df n rnd end = Returned s
    /\ s <> []
    /\ rows = map (fun ka => encoded il (snd ka)
                               (Qle_bool (rand rnd (fst ka)) (1 # 2)))
                  (combine (seq 0 (length s)) s)
    /\ vis_hm_idx
       = map (fun xr => int_of_bool
                          (is_home_level (value_of home_away_levels (last xr 0))))
             rows
    /\ x = mask_step rows mask_p (np_rand rnd)
    /\ Win t
       = map (fun p => float_of_bool (pick (VisWin (fst p)) (HmWin (fst p)) (snd p)))
             (combine s vis_hm_idx)
    /\ mapM (fun kv =>
               vis <- loc (fst (snd kv)) (map label s) ;;
               hm <- loc (snd (snd kv)) (map label s) ;;
               let v := combine (combine vis hm) vis_hm_idx in
               Returned (fst kv,
                         (map (fun p => pick (fst (fst p)) (snd (fst p)) (snd p)) v,
                          map (fun p => pick (fst (fst p)) (snd (fst p)) (1 - snd p)) v)))
            tdfs
       = Returned (team_opp t).
Proof.
  intros il H. unfold get_sample in H.
  destruct (match idxs with Some l => iloc df l | None => sample df n rnd end)
    as [s|e] eqn:Hs; cbn [bind] in H; [|discriminate H].
  rewrite (mapMi_Returned _ (fun k r => encoded il r (Qle_bool (rand rnd k) (1 # 2))))
    in H by (intros; apply get_inputs_returns).
  cbn [bind] in H.
  set (rows := map _ (combine (seq 0 (length s)) s)) in H.
  exists s, rows. eexists. split; [reflexivity|].
  destruct (np_stack rows) as [x0|e] eqn:Hx; cbn [bind] in H; [|discriminate H].
  assert (Hx0 : x0 = rows /\ s <> []).
  { unfold np_stack in Hx. destruct rows eqn:Hrows; [discriminate Hx|].
    injection Hx as <-. split; [reflexivity|].
    intros ->. discriminate Hrows. }
  destruct Hx0 as [-> Hne].
  unfold get_levels_seq, get_levels in H. rewrite mapM_Returned in H.
  cbn [bind] in H.
  rewrite (mapM_ext_Returned _ is_home_level) in H.
  2:{ intros a Ha. apply in_map_iff in Ha. destruct Ha as (i & <- & _).
      apply is_home_value_of. }
  cbn [bind] in H.
  rewrite !map_map in H.
  match type of H with
  | bind ?c _ = _ => destruct c as [tos|e] eqn:Htos; cbn [bind] in H; [|discriminate H]
  end.
  injection H as Hx' Ht. subst t x. cbn [Win team_opp].
  split; [exact Hne|]. split; [reflexivity|]. split; [reflexivity|].
  split; [reflexivity|]. split; [reflexivity|]. exact Htos.
Qed.

Lemma length_encoded (il : input_levels_t) (r : row) (b : bool) :
  length (encoded il r b) = 14%nat.
Proof. now destruct b. Qed.

Lemma mapM_length {A B : Type} (f : A -> result B) (l : list A) (m : list B) :
  mapM f l = Returned m -> length m = length l.
Proof. intros H. symmetry. eapply Forall2_length, mapM_Forall2, H. Qed.

(** X6: The shape of a sample: [x] has a row of fourteen indices for every
    sampled record, and every target has an entry for every sampled record;
    the per-statistic targets come in the order of [target_dfs]; with
    [idxs] given, the records are as many as the positions asked for, and
    there is at least one. *)
Theorem get_sample_shape
    (df0 df : list row) (tdfs : list (suffix * (target_df * target_df)))
    (n : option nat) (idxs : option (list Z)) (mask_p : Q) (rnd : randomness)
    (x : list (list Z)) (t : targets_t) :
  get_sample (input_levels df0) df tdfs n idxs mask_p rnd = Returned (x, t) ->
  exists m : nat,
    (0 < m)%nat
    /\ length x = m
    /\ Forall (fun xr => length xr = 14%nat) x
    /\ length (Win t) = m
    /\ map fst (team_opp t) = map fst tdfs
    /\ Forall (fun e => length (fst (snd e)) = m /\ length (snd (snd e)) = m)
              (team_opp t)
    /\ (forall l, idxs = Some l -> length l = m).
Proof.
  intros H.
  destruct (get_sample_inversion _ _ _ _ _ _ _ H)
    as (s & rows & idx & Hs & Hne & Hrows & Hidx & Hx & HW & Htos).
  assert (Hlr : length rows = length s)
    by (rewrite Hrows, length_map, length_combine, length_seq; lia).
  assert (Hli : length idx = length s) by (rewrite Hidx, length_map; exact Hlr).
  exists (length s). split; [destruct s; [congruence|cbn; lia]|].
  split.
  { rewrite <- Hlr, <- (length_map (@length Z) x), Hx, mask_step_shape.
    apply length_map. }
  split.
  { assert (Hall : Forall (fun k => k = 14%nat) (map (@length Z) x)).
    { rewrite Hx, mask_step_shape, Hrows, map_map.
      apply Forall_forall. intros k Hk. apply in_map_iff in Hk.
      destruct Hk as (ka & <- & _). apply length_encoded. }
    rewrite Forall_map in Hall. exact Hall. }
  split; [rewrite HW, length_map, length_combine, Hli; lia|].
  apply mapM_Forall2 in Htos.
  split; [|split].
  - clear -Htos. induction Htos as [|kv e l m Hkv _ IH]; cbn; [reflexivity|].
    rewrite IH. f_equal.
    destruct (loc (fst (snd kv)) (map label s)); cbn [bind] in Hkv; [|discriminate].
    destruct (loc (snd (snd kv)) (map label s)); cbn [bind] in Hkv; [|discriminate].
    now injection Hkv as <-.
  - clear -Htos Hli. induction Htos as [|kv e l m Hkv _ IH]; constructor;
      [|exact IH].
    destruct (loc (fst (snd kv)) (map label s)) as [vis|] eqn:Hv;
      cbn [bind] in Hkv; [|discriminate].
    destruct (loc (snd (snd kv)) (map label s)) as [hm|] eqn:Hh;
      cbn [bind] in Hkv; [|discriminate].
    injection Hkv as <-. cbn [fst snd].
    apply mapM_length in Hv, Hh. rewrite length_map in Hv, Hh.
    rewrite !length_map, !length_combine, Hv, Hh, Hli. lia.
  - intros l ->. unfold iloc in Hs. apply mapM_length in Hs. now rewrite Hs.
Qed.

Lemma get_sample_shape_witness :
  exists m : nat,
    (0 < m)%nat
    /\ length [[0; 0; 0; 0; 0; 0; 0; 0; 0; 0; 0; 0; 0; 3]] = m
    /\ Forall (fun xr => length xr = 14%nat)
              [[0; 0; 0; 0; 0; 0; 0; 0; 0; 0; 0; 0; 0; 3]]
    /\ length (Win {| Win := [1%Q]; team_opp := [] |}) = m
    /\ map fst (team_opp {| Win := [1%Q]; team_opp := [] |})
       = map fst (@nil (suffix * (target_df * target_df)))
    /\ Forall (fun e => length (fst (snd e)) = m /\ length (snd (snd e)) = m)
              (team_opp {| Win := [1%Q]; team_opp := [] |})
    /\ (forall l, Some [0] = Some l -> length l = m).
Proof.
  apply (@get_sample_shape [game_2019] [game_2019] [] None (Some [0]) 0
           draws_quarter).
  reflexivity.
Defined.

(** X7: The entry of the returned [x] for the i-th sampled record and the
    j-th field is the index that [get_inputs] gives the record for that
    field, encoded with the home side last when the record's draw of
    [rnd.rand()] is at most 0.5, unless [mask_p > 0] and the draw of the
    mask at that place is at most [mask_p]: then it is 0. *)
Theorem get_sample_entry
    (df0 df : list row) (tdfs : list (suffix * (target_df * target_df)))
    (n : option nat) (idxs : option (list Z)) (mask_p : Q) (rnd : randomness)
    (x : list (list Z)) (t : targets_t) (s : list row) (i j : nat) (r : row) :
  let il := input_levels df0 in
  get_sample il df tdfs n idxs mask_p rnd = Returned (x, t) ->
  match idxs with Some l => iloc df l | None => sample df n rnd end = Returned s ->
  nth_error s i = Some r ->
  exists enc,
    get_inputs il r (Qle_bool (rand rnd i) (1 # 2)) = Returned enc
    /\ entry x i j
       = option_map (fun v => if Qlt_bool 0 mask_p
                                 && Qle_bool (np_rand rnd i j) mask_p
                              then 0 else v)
                    (nth_error enc j).
Proof.
  intros il H Hs Hr.
  destruct (get_sample_inversion _ _ _ _ _ _ _ H)
    as (s' & rows & idx & Hs' & _ & Hrows & _ & Hx & _ & _).
  assert (s' = s) by congruence. subst s'.
  exists (encoded il r (Qle_bool (rand rnd i) (1 # 2))).
  split; [apply get_inputs_returns|].
  rewrite Hx, mask_step_entry. f_equal.
  unfold entry. rewrite Hrows, nth_error_map.
  now rewrite (nth_error_combine_seq s 0 i Hr).
Qed.

Lemma get_sample_entry_witness :
  exists enc,
    get_inputs (input_levels [game_2019]) game_2019
               (Qle_bool (rand draws_quarter 0) (1 # 2)) = Returned enc
    /\ entry [[0; 0; 0; 0; 0; 0; 0; 0; 0; 0; 0; 0; 0; 0]] 0 13
       = option_map (fun v => if Qlt_bool 0 (1 # 2)
                                 && Qle_bool (np_rand draws_quarter 0%nat 13%nat) (1 # 2)
                              then 0 else v)
                    (nth_error enc 13).
Proof.
  apply (@get_sample_entry [game_2019] [game_2019] [] None (Some [0]) (1 # 2)
           draws_quarter [[0; 0; 0; 0; 0; 0; 0; 0; 0; 0; 0; 0; 0; 0]]
           {| Win := [1%Q]; team_opp := [] |} [game_2019] 0 13 game_2019).
  - reflexivity.
  - reflexivity.
  - reflexivity.
Defined.

(** X12: An empty selection ([idxs] empty, or [n = 0]) makes [get_sample]
    raise: there is no row to stack. *)
Theorem get_sample_empty_selection (il : input_levels_t) (df : list row)
    (tdfs : list (suffix * (target_df * target_df)))
    (n : option nat) (idxs : option (list Z)) (mask_p : Q) (rnd : randomness) :
  idxs = Some [] \/ (idxs = None /\ n = Some O) ->
  raises (get_sample il df tdfs n idxs mask_p rnd).
Proof.
  intros [->|[-> ->]]; exists AttributeError; reflexivity.
Qed.

Lemma get_sample_empty_selection_witness :
  raises (get_sample (input_levels [game_2019]) [game_2019] [] None (Some [])
                     0 draws_quarter).
Proof.
  apply (@get_sample_empty_selection (input_levels [game_2019]) [game_2019] []
           None (Some []) 0 draws_quarter).
  left. reflexivity.
Defined.

(** X13: A selection the frame cannot serve is refused before anything is
    encoded: a position outside [-len(df), len(df)) with an IndexError, a
    sample larger than the frame with a ValueError. *)
Theorem get_sample_refused_selection (il : input_levels_t) (df : list row)
    (tdfs : list (suffix * (target_df * target_df)))
    (n : option nat) (mask_p : Q) (rnd : randomness) :
  (forall l i, In i l ->
               i < - Z.of_nat (length df) \/ Z.of_nat (length df) <= i ->
               get_sample il df tdfs n (Some l) mask_p rnd = Raised IndexError)
  /\ (forall k, (length df < k)%nat ->
                get_sample il df tdfs (Some k) None mask_p rnd = Raised ValueError).
Proof.
  split.
  - intros l i Hin Hi. unfold get_sample.
    assert (Hil : iloc df l = Raised IndexError).
    { unfold iloc. apply mapM_Raised_In with (a := i); [|assumption|].
      - intros b e. destruct (_ || _); [congruence|].
        destruct (nth_error df _); congruence.
      - destruct (Z.ltb_spec i 0).
        + replace ((i + Z.of_nat (length df) <? 0)
                   || (Z.of_nat (length df) <=? i + Z.of_nat (length df)))%bool
            with true; [reflexivity|].
          symmetry. apply Bool.orb_true_iff. left. apply Z.ltb_lt. lia.
        + replace ((i <? 0) || (Z.of_nat (length df) <=? i))%bool
            with true; [reflexivity|].
          symmetry. apply Bool.orb_true_iff. right. apply Z.leb_le. lia. }
    now rewrite Hil.
  - intros k Hk. unfold get_sample, sample.
    apply Nat.ltb_lt in Hk. now rewrite Hk.
Qed.

(** ** The evaluation loop *)

Lemma range_empty (a b : Z) : b <= a -> range a b = [].
Proof.
  intros H. unfold range. replace (Z.to_nat (b - a)) with O by lia. reflexivity.
Qed.

Lemma range_In (a b i : Z) : In i (range a b) <-> a <= i < b.
Proof.
  unfold range. rewrite in_map_iff. split.
  - intros (k & <- & Hk). apply in_seq in Hk. lia.
  - intros Hi. exists (Z.to_nat (i - a)). split; [lia|]. apply in_seq. lia.
Qed.

Lemma map_seq_offset {B : Type} (m : nat) :
  forall (f : nat -> B) (n : nat),
    map f (seq n m) = map (fun k => f (n + k)%nat) (seq 0 m).
Proof.
  induction m as [|m IH]; intros f n; cbn [seq map]; [reflexivity|].
  rewrite Nat.add_0_r. f_equal.
  rewrite (IH f (S n)), (IH (fun k => f (n + k)%nat) 1%nat).
  apply map_ext. intros k. f_equal. lia.
Qed.

Lemma range_app (a b c : Z) :
  a <= b <= c -> range a b ++ range b c = range a c.
Proof.
  intros H. unfold range.
  replace (Z.to_nat (c - a)) with (Z.to_nat (b - a) + Z.to_nat (c - b))%nat by lia.
  rewrite seq_app, map_app. apply (f_equal (app _)). cbn [Nat.add].
  rewrite (@map_seq_offset Z (Z.to_nat (c - b)) (fun k => a + Z.of_nat k)
             (Z.to_nat (b - a))).
  apply map_ext. intros k. lia.
Qed.

Lemma full_batches (len : Z) (m : nat) :
  Z.of_nat m * 1000 <= len ->
  concat (map (fun i => range (i * 1000) (Z.min len ((i + 1) * 1000)))
              (map (fun k => 0 + Z.of_nat k) (seq 0 m)))
  = range 0 (Z.of_nat m * 1000).
Proof.
  induction m as [|m IH]; intros Hm; [reflexivity|].
  rewrite seq_S, !map_app, concat_app, IH by lia.
  cbn [map concat Nat.add]. rewrite app_nil_r.
  replace (Z.min len ((0 + Z.of_nat m + 1) * 1000)) with (Z.of_nat (S m) * 1000)
    by lia.
  replace ((0 + Z.of_nat m) * 1000) with (Z.of_nat m * 1000) by lia.
  apply range_app. lia.
Qed.

(** X14: The turns of the loop ask for every position of the frame once, in
    order. *)
Theorem eval_idxs_cover (df : list row) :
  concat (map (eval_idxs df) (eval_turns df)) = range 0 (Z.of_nat (length df)).
Proof.
  unfold eval_turns, eval_idxs.
  set (len := Z.of_nat (length df)).
  assert (Hlen : 0 <= len) by (unfold len; lia).
  pose proof (Z.div_mod len 1000 ltac:(lia)) as Hdm.
  pose proof (Z.mod_pos_bound len 1000 ltac:(lia)) as Hmod.
  assert (Hq : 0 <= len / 1000) by (apply Z.div_pos; lia).
  unfold range at 2.
  replace (Z.to_nat (len / 1000 + 1 - 0)) with (S (Z.to_nat (len / 1000))) by lia.
  rewrite seq_S, !map_app, concat_app, full_batches by lia.
  cbn [map concat Nat.add]. rewrite app_nil_r.
  replace (Z.min len ((0 + Z.of_nat (Z.to_nat (len / 1000)) + 1) * 1000))
    with len by lia.
  replace ((0 + Z.of_nat (Z.to_nat (len / 1000))) * 1000)
    with (Z.of_nat (Z.to_nat (len / 1000)) * 1000) by lia.
  apply range_app. lia.
Qed.

(** X15: When the number of rows is a multiple of 1000 (zero included), the
    last turn asks for no position at all, [get_sample] raises on it, and
    the loop does not finish. *)
Theorem eval_samples_multiple_of_1000 (il : input_levels_t) (df : list row)
    (tdfs : list (suffix * (target_df * target_df))) (rnd : Z -> randomness) :
  Z.of_nat (length df) mod 1000 = 0 ->
  eval_idxs df (Z.of_nat (length df) / 1000) = []
  /\ In (Z.of_nat (length df) / 1000) (eval_turns df)
  /\ raises (eval_samples il df tdfs rnd).
Proof.
  intros Hmod. set (len := Z.of_nat (length df)) in *.
  assert (Hlen : 0 <= len) by (unfold len; lia).
  pose proof (Z.div_mod len 1000 ltac:(lia)) as Hdm.
  assert (Hq : 0 <= len / 1000) by (apply Z.div_pos; lia).
  assert (Hidx : eval_idxs df (len / 1000) = []).
  { unfold eval_idxs. fold len. apply range_empty. lia. }
  assert (Hin : In (len / 1000) (eval_turns df)).
  { unfold eval_turns. fold len. apply range_In. lia. }
  split; [exact Hidx|]. split; [exact Hin|].
  unfold eval_samples. apply mapM_raises_In with (a := len / 1000); [exact Hin|].
  fold len. rewrite Hidx. exists AttributeError. reflexivity.
Qed.

Lemma eval_samples_multiple_of_1000_witness :
  eval_idxs [] (Z.of_nat (length (@nil row)) / 1000) = []
  /\ In (Z.of_nat (length (@nil row)) / 1000) (eval_turns [])
  /\ raises (eval_samples (input_levels []) [] [] (fun _ => draws_quarter)).
Proof.
  apply (@eval_samples_multiple_of_1000 (input_levels []) [] []
           (fun _ => draws_quarter)).
  reflexivity.
Defined.

(** ** The thresholds of the binary targets *)

Lemma StronglySorted_nth_error {A : Type} (R : A -> A -> Prop) (l : list A) :
  StronglySorted R l ->
  forall j k a b, (j < k)%nat -> nth_error l j = Some a -> nth_error l k = Some b ->
                  R a b.
Proof.
  induction 1 as [|x t Ht IH Hx]; intros j k a b Hjk Ha Hb.
  - destruct j; discriminate Ha.
  - destruct k as [|k]; [lia|]. destruct j as [|j]; cbn in Ha, Hb.
    + injection Ha as <-. rewrite Forall_forall in Hx. apply Hx.
      eapply nth_error_In; eassumption.
    + apply (IH j k); [lia|assumption|assumption].
Qed.

(** The frames that the call on the notebook's own frame returns. *)
Lemma get_binary_targets_on_df_subset (np_quantile : list Q -> nat -> list Q)
    (df_subset : list row) (sfx : suffix) (n_q : nat) :
  get_binary_targets np_quantile df_subset df_subset sfx n_q
  = Returned
      (stat_frame np_quantile df_subset Vis sfx n_q,
       stat_frame np_quantile df_subset Hm sfx n_q).
Proof.
  unfold get_binary_targets.
  rewrite (mapM_ext_Returned _ (le_column df_subset Vis sfx))
    by (intros; apply assign_column_full, length_le_column).
  rewrite (mapM_ext_Returned _ (le_column df_subset Hm sfx))
    by (intros; apply assign_column_full, length_le_column).
  reflexivity.
Qed.

Lemma cell_at_le_column (df_subset : list row) (sd : side) (sfx : suffix)
    (qs : list Q) (n : nat) (i j : nat) (a : Q) :
  cell_at {| columns := qs; nrows := n;
             cells := map (le_column df_subset sd sfx) qs |} i j = Some a ->
  exists r q, nth_error df_subset i = Some r /\ nth_error qs j = Some q
              /\ a = float_of_bool (Qle_bool (stat r sd sfx) q).
Proof.
  unfold cell_at; cbn [cells]. rewrite nth_error_map.
  destruct (nth_error qs j) as [q|]; cbn [option_map]; [|discriminate].
  unfold le_column, series. rewrite !nth_error_map.
  destruct (nth_error df_subset i) as [r|]; cbn [option_map]; [|discriminate].
  intros H. injection H as <-. eauto.
Qed.

(** X4: The thresholds of a statistic increase strictly from one column to the
    next, so the targets of a record can only go from 0 to 1 along its
    row: once a threshold is met, every later one is. *)
Theorem get_binary_targets_monotone (np_quantile : list Q -> nat -> list Q)
    (df_subset : list row) (var_suffix : suffix) (n_q : nat) :
  exists vis hm,
    get_binary_targets np_quantile df_subset df_subset var_suffix n_q
    = Returned (vis, hm)
    /\ StronglySorted Qlt (columns vis)
    /\ columns hm = columns vis
    /\ forall (t : target_df) (i j k : nat) (a b : Q),
         t = vis \/ t = hm -> (j <= k)%nat ->
         cell_at t i j = Some a -> cell_at t i k = Some b ->
         (a <= b)%Q.
Proof.
  rewrite get_binary_targets_on_df_subset. unfold stat_frame. do 2 eexists.
  split; [reflexivity|]. cbn [columns].
  split; [apply quantiles_sorted|]. split; [reflexivity|].
  assert (Hmono : forall sd i j k a b, (j <= k)%nat ->
            cell_at {| columns := quantiles np_quantile df_subset var_suffix n_q;
                       nrows := length df_subset;
                       cells := map (le_column df_subset sd var_suffix)
                                    (quantiles np_quantile df_subset var_suffix n_q) |}
                    i j = Some a ->
            cell_at {| columns := quantiles np_quantile df_subset var_suffix n_q;
                       nrows := length df_subset;
                       cells := map (le_column df_subset sd var_suffix)
                                    (quantiles np_quantile df_subset var_suffix n_q) |}
                    i k = Some b ->
            (a <= b)%Q).
  { intros sd i j k a b Hjk Ha Hb.
    apply cell_at_le_column in Ha, Hb.
    destruct Ha as (r & q & Hr & Hq & ->). destruct Hb as (r' & q' & Hr' & Hq' & ->).
    assert (r' = r) by congruence. subst r'.
    assert (Hqq : (q <= q')%Q).
    { destruct (Nat.eq_dec j k) as [->|Hne].
      - assert (q' = q) by congruence. subst q'. apply Qle_refl.
      - apply Qlt_le_weak.
        eapply (StronglySorted_nth_error
                  (quantiles_sorted np_quantile df_subset var_suffix n_q));
          [|eassumption|eassumption]. lia. }
    destruct (Qle_bool (stat r sd var_suffix) q) eqn:H1;
      destruct (Qle_bool (stat r sd var_suffix) q') eqn:H2; cbn;
      try discriminate.
    exfalso. apply Qle_bool_iff in H1.
    assert (H3 : Qle_bool (stat r sd var_suffix) q' = true)
      by (apply Qle_bool_iff; eapply Qle_trans; eassumption).
    congruence. }
  intros t i j k a b [->| ->]; apply Hmono.
Qed.

(** X5: The values come from the global frame and only the number of rows
    from the argument: with an argument of another length the first
    column cannot be stored, and the call raises a ValueError (unless the
    global frame has one row, which numpy broadcasts, or there is no
    threshold). *)
Theorem get_binary_targets_other_length (np_quantile : list Q -> nat -> list Q)
    (df_subset df : list row) (var_suffix : suffix) (n_q : nat) :
  length df <> length df_subset ->
  length df_subset <> 1%nat ->
  quantiles np_quantile df_subset var_suffix n_q <> [] ->
  get_binary_targets np_quantile df_subset df var_suffix n_q = Raised ValueError.
Proof.
  intros Hlen H1 Hq. unfold get_binary_targets.
  destruct (quantiles np_quantile df_subset var_suffix n_q) as [|q qs];
    [congruence|].
  cbn [mapM]. unfold assign_column at 1.
  rewrite length_le_column.
  replace (Nat.eqb (length df_subset) (length df)) with false
    by (symmetry; apply Nat.eqb_neq; congruence).
  pose proof (length_le_column df_subset Vis var_suffix q) as Hl.
  destruct (le_column df_subset Vis var_suffix q) as [|v [|v' col]];
    cbn [length] in Hl; try reflexivity.
  congruence.
Qed.

Lemma get_binary_targets_other_length_witness :
  get_binary_targets (fun _ _ => []) [game_2019; game_2019] [game_2019] sRuns 10
  = Raised ValueError.
Proof.
  apply (@get_binary_targets_other_length (fun _ _ => [])
           [game_2019; game_2019] [game_2019] sRuns 10).
  - cbn. lia.
  - cbn. lia.
  - discriminate.
Defined.

(** ** The per-statistic targets of a sample *)

(** [target_dfs] holds, for each of the seven statistics in order, the
    two frames of the call on the notebook's frame; no call raises. *)
Lemma target_dfs_returns (np_quantile : list Q -> nat -> list Q)
    (df_subset : list row) (n_q : nat) :
  target_dfs np_quantile df_subset n_q
  = Returned
      (map (fun sfx => (sfx, (stat_frame np_quantile df_subset Vis sfx n_q,
                              stat_frame np_quantile df_subset Hm sfx n_q)))
           target_suffixes).
Proof.
  unfold target_dfs. apply mapM_ext_Returned. intros sfx _.
  now rewrite get_binary_targets_on_df_subset.
Qed.

Lemma loc_nth (t : target_df) (labels : list Z) (m : list (list Q)) :
  loc t labels = Returned m ->
  forall k l, nth_error labels k = Some l ->
              0 <= l < Z.of_nat (nrows t)
              /\ nth_error m k
                 = Some (map (fun col => nth (Z.to_nat l) col 0%Q) (cells t)).
Proof.
  intros H k l Hl. unfold loc in H. apply mapM_Forall2 in H.
  destruct (Forall2_nth_error H k Hl) as (b & Hb & Hf).
  destruct (Z.ltb_spec l 0); cbn [orb] in Hf; [discriminate Hf|].
  destruct (Z.leb_spec (Z.of_nat (nrows t)) l); [discriminate Hf|].
  injection Hf as <-. split; [lia|exact Hb].
Qed.

Lemma nth_le_column (df_subset : list row) (sd : side) (sfx : suffix) (q : Q)
    (p : nat) (r : row) :
  nth_error df_subset p = Some r ->
  nth p (le_column df_subset sd sfx q) 0%Q
  = float_of_bool (Qle_bool (stat r sd sfx) q).
Proof.
  intros Hr. apply nth_error_nth. unfold le_column, series.
  now rewrite !nth_error_map, Hr.
Qed.

Lemma Forall2_In_r {A B : Type} (R : A -> B -> Prop) (l : list A) (m : list B) (b : B) :
  Forall2 R l m -> In b m -> exists a, In a l /\ R a b.
Proof.
  induction 1 as [|a0 b0 l m H0 H IH]; intros Hin; [destruct Hin|].
  destruct Hin as [<-|Hin].
  - exists a0. split; [now left|assumption].
  - destruct (IH Hin) as (a & Ha & HR). exists a. split; [now right|assumption].
Qed.

Lemma Forall2_keys {K A B : Type} (F : K * A -> result (K * B))
    (l : list (K * A)) (m : list (K * B)) :
  Forall2 (fun kv e => F kv = Returned e) l m ->
  (forall kv e, F kv = Returned e -> fst e = fst kv) ->
  map fst m = map fst l.
Proof.
  intros H HF. induction H as [|kv e l m Hkv _ IH]; cbn [map]; [reflexivity|].
  now rewrite IH, (HF kv e Hkv).
Qed.

(** The threshold bits of a row for a side and a statistic. *)
Lemma stat_targets_of_row (np_quantile : list Q -> nat -> list Q)
    (df : list row) (sd : side) (sfx : suffix) (n_q : nat) (p : nat) (r' : row) :
  nth_error df p = Some r' ->
  map (fun col => nth p col 0%Q)
      (map (le_column df sd sfx) (quantiles np_quantile df sfx n_q))
  = map (fun q => float_of_bool (Qle_bool (stat r' sd sfx) q))
        (quantiles np_quantile df sfx n_q).
Proof.
  intros Hr. rewrite map_map. apply map_ext. intros q. now apply nth_le_column.
Qed.

(** X10: The per-statistic targets of a sampled record are looked up by the
    record's index label in frames that are indexed by position: they are
    the threshold bits of the row of the frame at the position equal to
    that label (the record itself when labels are positions), for the side
    named by the composite field in [team] and for the other side in
    [opp]. *)
Theorem get_sample_stat_targets (np_quantile : list Q -> nat -> list Q)
    (df0 df : list row) (n_q : nat)
    (tdfs : list (suffix * (target_df * target_df)))
    (n : option nat) (idxs : option (list Z)) (mask_p : Q) (rnd : randomness)
    (x : list (list Z)) (t : targets_t) :
  let il := input_levels df0 in
  target_dfs np_quantile df n_q = Returned tdfs ->
  get_sample il df tdfs n idxs mask_p rnd = Returned (x, t) ->
  exists s,
    match idxs with Some l => iloc df l | None => sample df n rnd end = Returned s
    /\ map fst (team_opp t) = target_suffixes
    /\ forall (k : nat) (r : row),
         nth_error s k = Some r ->
         exists r',
           0 <= label r
           /\ nth_error df (Z.to_nat (label r)) = Some r'
           /\ (forall p, nth_error df p = Some r -> label r = Z.of_nat p -> r' = r)
           /\ forall sfx team opp,
                In (sfx, (team, opp)) (team_opp t) ->
                let enc := encoded il r (Qle_bool (rand rnd k) (1 # 2)) in
                let home := is_home_level (value_of (home_away il) (last enc 0)) in
                let bits (sd : side) :=
                  map (fun q => float_of_bool (Qle_bool (stat r' sd sfx) q))
                      (quantiles np_quantile df sfx n_q) in
                nth_error team k = Some (bits (if home then Hm else Vis))
                /\ nth_error opp k = Some (bits (if home then Vis else Hm)).
Proof.
  intros il Htd H.
  assert (Etd : tdfs
                = map (fun sfx => (sfx, (stat_frame np_quantile df Vis sfx n_q,
                                         stat_frame np_quantile df Hm sfx n_q)))
                      target_suffixes)
    by (rewrite target_dfs_returns in Htd; congruence).
  destruct (get_sample_inversion _ _ _ _ _ _ _ H)
    as (s & rows & idx & Hs & Hne & Hrows & Hidx & Hx & HW & Htos).
  fold il in Hrows.
  exists s. split; [exact Hs|].
  apply mapM_Forall2 in Htos.
  split.
  { transitivity (map fst tdfs); [|rewrite Etd, map_map; cbn [fst]; apply map_id].
    eapply Forall2_keys; [exact Htos|]. intros kv e Hkv. cbv beta in Hkv.
    destruct (loc (fst (snd kv)) (map label s)); cbn [bind] in Hkv; [|discriminate].
    destruct (loc (snd (snd kv)) (map label s)); cbn [bind] in Hkv; [|discriminate].
    now injection Hkv as <-. }
  intros k r Hr.
  assert (Hlab : nth_error (map label s) k = Some (label r))
    by (now rewrite nth_error_map, Hr).
  assert (Hidxk : nth_error idx k
                  = Some (int_of_bool
                            (is_home_level
                               (value_of home_away_levels
                                  (last (encoded il r (Qle_bool (rand rnd k) (1 # 2))) 0))))).
  { rewrite Hidx, Hrows, map_map, nth_error_map.
    rewrite (nth_error_combine_seq s 0 k Hr). reflexivity. }
  (* the first statistic already bounds the label *)
  assert (Hrange : 0 <= label r < Z.of_nat (length df)).
  { rewrite Etd in Htos. cbn [target_suffixes map] in Htos.
    inversion Htos as [|? e ? m' He _]; subst. cbn [fst snd] in He.
    destruct (loc _ (map label s)) as [vis|] eqn:Hv; cbn [bind] in He;
      [|discriminate].
    now destruct (loc_nth _ _ Hv k Hlab) as [Hr0 _]. }
  destruct (nth_error df (Z.to_nat (label r))) as [r'|] eqn:Hr';
    [|apply nth_error_None in Hr'; lia].
  exists r'. split; [lia|]. split; [reflexivity|]. split.
  { intros p Hp Hl. rewrite Hl, Nat2Z.id in Hr'. congruence. }
  intros sfx team opp Hin.
  destruct (@Forall2_In_r _ _ _ _ _ _ Htos Hin) as (kv & Hkv & Hf).
  rewrite Etd in Hkv.
  apply in_map_iff in Hkv. destruct Hkv as (sfx' & <- & _).
  cbn [fst snd] in Hf.
  destruct (loc (stat_frame np_quantile df Vis sfx' n_q) (map label s))
    as [vis|] eqn:Hv; cbn [bind] in Hf; [|discriminate].
  destruct (loc (stat_frame np_quantile df Hm sfx' n_q) (map label s))
    as [hm|] eqn:Hh; cbn [bind] in Hf; [|discriminate].
  cbv zeta in Hf. injection Hf as Es <- <-. subst sfx'.
  destruct (loc_nth _ _ Hv k Hlab) as [_ Hvk].
  destruct (loc_nth _ _ Hh k Hlab) as [_ Hhk].
  unfold stat_frame in Hvk, Hhk. cbn [cells] in Hvk, Hhk.
  rewrite (stat_targets_of_row np_quantile df Vis sfx n_q _ Hr') in Hvk.
  rewrite (stat_targets_of_row np_quantile df Hm sfx n_q _ Hr') in Hhk.
  assert (Hc : nth_error (combine (combine vis hm) idx) k
               = Some ((map (fun q => float_of_bool (Qle_bool (stat r' Vis sfx) q))
                            (quantiles np_quantile df sfx n_q),
                        map (fun q => float_of_bool (Qle_bool (stat r' Hm sfx) q))
                            (quantiles np_quantile df sfx n_q)),
                       int_of_bool
                         (is_home_level
                            (value_of home_away_levels
                               (last (encoded il r (Qle_bool (rand rnd k) (1 # 2))) 0))))).
  { apply nth_error_combine; [|exact Hidxk]. now apply nth_error_combine. }
  cbv zeta. rewrite !nth_error_map, Hc. cbn [option_map fst snd].
  change (home_away il) with home_away_levels.
  destruct (is_home_level _); split; reflexivity.
Qed.

Lemma get_sample_stat_targets_witness :
  exists tdfs x t,
    target_dfs (fun _ _ => []) [game_2019] 10 = Returned tdfs
    /\ get_sample (input_levels [game_2019]) [game_2019] tdfs None (Some [0]) 0
                  draws_quarter = Returned (x, t)
    /\ exists s,
         iloc [game_2019] [0] = Returned s
         /\ map fst (team_opp t) = target_suffixes
         /\ forall (k : nat) (r : row),
              nth_error s k = Some r ->
              exists r',
                0 <= label r
                /\ nth_error [game_2019] (Z.to_nat (label r)) = Some r'
                /\ (forall p, nth_error [game_2019] p = Some r ->
                              label r = Z.of_nat p -> r' = r)
                /\ forall sfx team opp,
                     In (sfx, (team, opp)) (team_opp t) ->
                     let enc := encoded (input_levels [game_2019]) r
                                        (Qle_bool (rand draws_quarter k) (1 # 2)) in
                     let home := is_home_level
                                   (value_of (home_away (input_levels [game_2019]))
                                             (last enc 0)) in
                     let bits (sd : side) :=
                       map (fun q => float_of_bool (Qle_bool (stat r' sd sfx) q))
                           (quantiles (fun _ _ => []) [game_2019] sfx 10) in
                     nth_error team k = Some (bits (if home then Hm else Vis))
                     /\ nth_error opp k = Some (bits (if home then Vis else Hm)).
Proof.
  do 3 eexists. split; [vm_compute; reflexivity|].
  split; [vm_compute; reflexivity|].
  eapply (@get_sample_stat_targets (fun _ _ => []) [game_2019] [game_2019] 10)
    with (n := None) (idxs := Some [0]) (mask_p := 0%Q) (rnd := draws_quarter).
  - vm_compute. reflexivity.
  - vm_compute. reflexivity.
Defined.

(** X11: A sampled record whose index label is not a position of the frame
    (as happens once [dropna] has removed a row before the end) makes the
    lookup of its per-statistic targets fail: [get_sample] raises a
    KeyError. *)
Theorem get_sample_label_out_of_range (np_quantile : list Q -> nat -> list Q)
    (df0 df : list row) (n_q : nat)
    (tdfs : list (suffix * (target_df * target_df)))
    (n : option nat) (idxs : option (list Z)) (mask_p : Q) (rnd : randomness)
    (s : list row) (r : row) :
  target_dfs np_quantile df n_q = Returned tdfs ->
  match idxs with Some l => iloc df l | None => sample df n rnd end = Returned s ->
  In r s ->
  label r < 0 \/ Z.of_nat (length df) <= label r ->
  get_sample (input_levels df0) df tdfs n idxs mask_p rnd = Raised KeyError.
Proof.
  intros Htd Hs Hr Hlab.
  assert (Etd : tdfs
                = map (fun sfx => (sfx, (stat_frame np_quantile df Vis sfx n_q,
                                         stat_frame np_quantile df Hm sfx n_q)))
                      target_suffixes)
    by (rewrite target_dfs_returns in Htd; congruence).
  unfold get_sample. rewrite Hs. cbn [bind].
  rewrite (mapMi_Returned _ (fun k r => encoded (input_levels df0) r
                                          (Qle_bool (rand rnd k) (1 # 2))))
    by (intros; apply get_inputs_returns).
  cbn [bind].
  set (rows := map _ (combine (seq 0 (length s)) s)).
  assert (Hst : np_stack rows = Returned rows).
  { unfold np_stack. destruct rows eqn:Hrows; [|reflexivity].
    apply (f_equal (@length (list Z))) in Hrows. unfold rows in Hrows.
    rewrite length_map, length_combine, length_seq, Nat.min_id in Hrows.
    destruct s; [destruct Hr|discriminate Hrows]. }
  rewrite Hst. cbn [bind].
  unfold get_levels_seq, get_levels. rewrite mapM_Returned. cbn [bind].
  rewrite (mapM_ext_Returned _ is_home_level).
  2:{ intros a Ha. apply in_map_iff in Ha. destruct Ha as (i & <- & _).
      apply is_home_value_of. }
  cbn [bind]. rewrite Etd. cbn [target_suffixes map mapM fst snd].
  assert (Hloc : loc (stat_frame np_quantile df Vis sRuns n_q) (map label s)
                 = Raised KeyError).
  { unfold loc. apply mapM_Raised_In with (a := label r).
    - intros b e. destruct (_ || _); congruence.
    - now apply in_map.
    - cbn [stat_frame nrows].
      replace ((label r <? 0) || (Z.of_nat (length df) <=? label r))%bool
        with true; [reflexivity|].
      symmetry. apply Bool.orb_true_iff.
      destruct Hlab; [left; apply Z.ltb_lt|right; apply Z.leb_le]; assumption. }
  rewrite Hloc. reflexivity.
Qed.

Lemma get_sample_label_out_of_range_witness :
  exists tdfs,
    target_dfs (fun _ _ => []) (dropna [(0, gamelog_no_runs); (1, gamelog_2019)]) 10
    = Returned tdfs
    /\ get_sample (input_levels (dropna [(0, gamelog_no_runs); (1, gamelog_2019)]))
                  (dropna [(0, gamelog_no_runs); (1, gamelog_2019)])
                  tdfs None (Some [0]) 0 draws_quarter
       = Raised KeyError.
Proof.
  eexists. split; [apply target_dfs_returns|].
  eapply (@get_sample_label_out_of_range (fun _ _ => [])
            (dropna [(0, gamelog_no_runs); (1, gamelog_2019)])
            (dropna [(0, gamelog_no_runs); (1, gamelog_2019)]) 10)
    with (s := dropna [(0, gamelog_no_runs); (1, gamelog_2019)])
         (r := {| label := 1;
                  Year := RInt 2019; Month := RInt 7; Day := RStr "Sat";
                  DayNight := RStr "N"; ParkID := RStr "BOS07";
                  Attendance := "low"; HmTmLg := RStr "AL"; UmpHID := RStr "ump01";
                  VisTmYr := RStr "NYA2019"; VisStPchID := RStr "pitv01";
                  VisMgrID := RStr "mgrv01"; HmTmYr := RStr "BOS2019";
                  HmStPchID := RStr "pith01"; HmMgrID := RStr "mgrh01";
                  stat := fun sd sf =>
                            match g_stat gamelog_2019 sd sf with
                            | Some q => q
                            | None => 0%Q
                            end;
                  VisWin := VisWin_col gamelog_2019;
                  HmWin := HmWin_col gamelog_2019 |}).
  - apply target_dfs_returns.
  - reflexivity.
  - left. reflexivity.
  - right. cbn. lia.
Defined.

(** ** The rows of the frame *)

Lemma dropna_row_label (lg : Z * game) (r : row) :
  dropna_row lg = Some r -> label r = fst lg.
Proof.
  unfold dropna_row, opt_bind. intros H.
  repeat match type of H with
         | match ?o with Some _ => _ | None => None end = Some _ =>
             destruct o; [|discriminate H]
         end.
  destruct (forallb _ all_stats); [|discriminate H].
  now injection H as <-.
Qed.

Lemma dropna_In (df : list (Z * game)) (r : row) :
  In r (dropna df) -> exists lg, In lg df /\ dropna_row lg = Some r.
Proof.
  induction df as [|lg t IH]; cbn [dropna]; [intros []|].
  destruct (dropna_row lg) as [r'|] eqn:Hrow.
  - intros [<-|Hin].
    + exists lg. split; [now left|assumption].
    + destruct (IH Hin) as (lg' & Hin' & Hr'). exists lg'. split; [now right|assumption].
  - intros Hin. destruct (IH Hin) as (lg' & Hin' & Hr').
    exists lg'. split; [now right|assumption].
Qed.

(** X2: Every row that [dropna] keeps comes from a row of the raw frame with no
    missing statistic and the same label, and its two win flags are
    complementary: [VisWin] holds exactly when the visitors scored more
    runs, and [HmWin] otherwise, ties included. *)
Theorem dropna_rows_win_flags (df : list (Z * game)) (r : row) :
  In r (dropna df) ->
  (exists g, In (label r, g) df
             /\ forall sd sf, g_stat g sd sf = Some (stat r sd sf))
  /\ HmWin r = negb (VisWin r)
  /\ (VisWin r = true <-> (stat r Hm sRuns < stat r Vis sRuns)%Q)
  /\ (HmWin r = true <-> (stat r Vis sRuns <= stat r Hm sRuns)%Q).
Proof.
  intros Hin. destruct (dropna_In df r Hin) as ([l g] & Hlg & Hrow).
  pose proof (dropna_row_label _ Hrow) as Hl. cbn [fst] in Hl.
  destruct (dropna_row_wins _ Hrow) as (Hv & Hh & Hstat). cbn [snd] in *.
  split; [exists g; split; [now rewrite Hl|exact Hstat]|].
  rewrite Hv, Hh. unfold HmWin_col, VisWin_col. rewrite !Hstat. cbn.
  split; [apply Qle_bool_Qlt_bool|]. split.
  - unfold Qlt_bool, Qlt. apply Z.ltb_lt.
  - apply Qle_bool_iff.
Qed.

Lemma dropna_rows_win_flags_witness :
  exists r,
    In r (dropna [(0, gamelog_no_runs); (1, gamelog_2019)])
    /\ (exists g, In (label r, g) [(0, gamelog_no_runs); (1, gamelog_2019)]
                  /\ forall sd sf, g_stat g sd sf = Some (stat r sd sf))
    /\ HmWin r = negb (VisWin r)
    /\ (VisWin r = true <-> (stat r Hm sRuns < stat r Vis sRuns)%Q)
    /\ (HmWin r = true <-> (stat r Vis sRuns <= stat r Hm sRuns)%Q).
Proof.
  eexists. split; [left; reflexivity|].
  apply (@dropna_rows_win_flags [(0, gamelog_no_runs); (1, gamelog_2019)]).
  left. reflexivity.
Defined.

(** ** The perspective of an encoded record *)

Lemma perspective_recovered (df0 : list row) (r : row) (b : bool) :
  bucketed r ->
  is_home_level (value_of (home_away (input_levels df0))
                          (last (encoded (input_levels df0) r b) 0)) = b.
Proof.
  intros Hb. rewrite last_encoded, (home_away_field_decodes df0 b Hb).
  destruct (bucketed_cases Hb) as [-> | [-> | ->]]; destruct b; reflexivity.
Qed.

(** X3: The encoded vector describes itself: positions 10 to 12 (the features
    'team', 'pitcher', 'manager') hold the block of the side that the
    composite field in the last position names, and positions 7 to 9
    ('opp_team', 'opp_pitcher', 'opp_manager') the block of the other. *)
Theorem get_inputs_team_block (df_subset : list row) (r : row) (home_tm_last : bool) :
  let il := input_levels df_subset in
  bucketed r ->
  exists enc,
    get_inputs il r home_tm_last = Returned enc
    /\ let home := is_home_level (value_of (home_away il) (last enc 0)) in
       firstn 3 (skipn 7 enc) = side_block il r (if home then Vis else Hm)
       /\ firstn 3 (skipn 10 enc) = side_block il r (if home then Hm else Vis).
Proof.
  intros il Hb. exists (encoded il r home_tm_last).
  split; [apply get_inputs_returns|]. cbv zeta.
  unfold il. rewrite (perspective_recovered df_subset home_tm_last Hb).
  destruct home_tm_last; split; reflexivity.
Qed.

Lemma get_inputs_team_block_witness :
  exists enc,
    get_inputs (input_levels [game_2019]) game_2019 false = Returned enc
    /\ let home := is_home_level
                     (value_of (home_away (input_levels [game_2019])) (last enc 0)) in
       firstn 3 (skipn 7 enc)
       = side_block (input_levels [game_2019]) game_2019 (if home then Vis else Hm)
       /\ firstn 3 (skipn 10 enc)
          = side_block (input_levels [game_2019]) game_2019 (if home then Hm else Vis).
Proof.
  apply (@get_inputs_team_block [game_2019] game_2019 false).
  exists 0. reflexivity.
Defined.



(** ** The module search path *)

Lemma existsb_eqb_In (a : string) (l : list string) :
  existsb (String.eqb a) l = true <-> In a l.
Proof.
  rewrite existsb_exists. split.
  - intros (b & Hb & He). apply String.eqb_eq in He. now subst b.
  - intros Ha. exists a. split; [assumption|apply String.eqb_refl].
Qed.

Lemma add_parents_appends (sep p : string) (parts sys_path : list string) :
  exists added,
    add_parents sep p parts sys_path = sys_path ++ added
    /\ NoDup added
    /\ forall a, In a added <-> In a (parents sep p parts) /\ ~ In a sys_path.
Proof.
  revert p sys_path. induction parts as [|part t IH]; intros p sys_path;
    cbn [add_parents parents].
  - exists []. rewrite app_nil_r. split; [reflexivity|]. split; [constructor|].
    intros a. cbn. tauto.
  - set (p' := String.append (String.append p sep) part).
    destruct (existsb (String.eqb p') sys_path) eqn:Hex.
    + apply existsb_eqb_In in Hex.
      destruct (IH p' sys_path) as (added & Heq & Hnd & Hin).
      exists added. split; [exact Heq|]. split; [exact Hnd|].
      intros a. rewrite Hin. cbn [In]. split; [tauto|].
      intros [[<-|Ha] Hn]; [contradiction|tauto].
    + assert (Hnot : ~ In p' sys_path).
      { intros Hc. apply existsb_eqb_In in Hc. congruence. }
      destruct (IH p' (sys_path ++ [p'])) as (added & Heq & Hnd & Hin).
      exists (p' :: added). split; [rewrite Heq, <- app_assoc; reflexivity|].
      split.
      * constructor; [|exact Hnd]. intros Hc. apply Hin in Hc.
        destruct Hc as [_ Hc]. apply Hc, in_or_app. right. now left.
      * intros a. cbn [In]. rewrite Hin, in_app_iff. cbn [In]. split.
        -- intros [<-|[Ha Hn]]; [tauto|]. split; [now right|]. tauto.
        -- intros [[<-|Ha] Hn]; [now left|].
           destruct (string_dec p' a) as [->|Hne]; [now left|].
           right. split; [assumption|]. intros [Hc|[Hc|[]]]; tauto.
Qed.

Lemma filter_filter_and {A : Type} (f g : A -> bool) (l : list A) :
  filter f (filter g l) = filter (fun x => f x && g x) l.
Proof.
  induction l as [|x t IH]; cbn [filter]; [reflexivity|].
  destruct (g x); cbn [filter]; rewrite IH; destruct (f x); reflexivity.
Qed.

Lemma filter_all {A : Type} (f : A -> bool) (l : list A) :
  (forall x, In x l -> f x = true) -> filter f l = l.
Proof.
  induction l as [|x t IH]; cbn [filter]; intros H; [reflexivity|].
  rewrite (H x) by now left. rewrite IH; [reflexivity|].
  intros y Hy. apply H. now right.
Qed.

Lemma first_seen_In (a : string) (l : list string) :
  In a (first_seen l) -> In a l.
Proof.
  induction l as [|x t IH]; cbn [first_seen]; [tauto|].
  intros [->|H]; [now left|]. right. apply IH.
  apply filter_In in H. tauto.
Qed.

(** A list without repetitions is left as it is. *)
Lemma first_seen_NoDup (l : list string) : NoDup l -> first_seen l = l.
Proof.
  induction 1 as [|x t Hx Ht IH]; cbn [first_seen]; [reflexivity|].
  rewrite IH. f_equal. apply filter_all. intros y Hy.
  apply negb_true_iff, String.eqb_neq. intros ->. contradiction.
Qed.

(** The loop as a whole: the paths it builds, each at its first place,
    without those that [sys.path] holds already, behind the entries of
    [sys.path]. *)
Lemma add_parents_in_order (sep p : string) (parts sys_path : list string) :
  add_parents sep p parts sys_path
  = sys_path
    ++ filter (fun a => negb (existsb (String.eqb a) sys_path))
              (first_seen (parents sep p parts)).
Proof.
  revert p sys_path. induction parts as [|part t IH]; intros p sys_path;
    cbn [add_parents parents first_seen].
  - cbn. now rewrite app_nil_r.
  - set (p' := String.append (String.append p sep) part).
    cbn [filter]. rewrite filter_filter_and.
    destruct (existsb (String.eqb p') sys_path) eqn:Hex; cbn [negb].
    + rewrite IH. f_equal. apply filter_ext. intros b.
      destruct (existsb (String.eqb b) sys_path) eqn:Hb; [reflexivity|].
      cbn [negb andb]. symmetry. apply negb_true_iff, String.eqb_neq.
      intros ->. congruence.
    + rewrite IH, <- app_assoc. cbn [app]. do 2 f_equal.
      apply filter_ext. intros b.
      rewrite existsb_app. cbn [existsb]. rewrite orb_false_r, negb_orb.
      now rewrite (String.eqb_sym b p').
Qed.

(** With a separator that is not empty the paths grow by a character at
    least, so the loop never builds one twice. *)
Lemma length_append (a b : string) :
  String.length (String.append a b) = (String.length a + String.length b)%nat.
Proof. induction a as [|c a IH]; cbn; [reflexivity|]. now rewrite IH. Qed.

Lemma parents_longer (sep p : string) (parts : list string) (a : string) :
  sep <> EmptyString ->
  In a (parents sep p parts) -> (String.length p < String.length a)%nat.
Proof.
  intros Hsep. revert p. induction parts as [|part t IH]; intros p;
    cbn [parents]; [intros []|].
  assert (Hlt : (String.length p
                 < String.length (String.append (String.append p sep) part))%nat).
  { rewrite !length_append. destruct sep; [congruence|]. cbn. lia. }
  intros [<-|H]; [exact Hlt|]. apply IH in H. lia.
Qed.

Lemma parents_NoDup (sep p : string) (parts : list string) :
  sep <> EmptyString -> NoDup (parents sep p parts).
Proof.
  intros Hsep. revert p. induction parts as [|part t IH]; intros p;
    cbn [parents]; constructor; [|apply IH].
  intros H. apply parents_longer in H; [lia|exact Hsep].
Qed.

(** X1: The loop keeps the entries of [sys.path] in place and appends
    behind them the paths it builds that are not there yet, in the order
    in which it builds them and each once, at its first place; when the
    separator is not empty, the paths it builds are all different and
    these are the paths it builds without those that [sys.path] held
    already. *)
Theorem extend_sys_path_appends_missing (sep p : string)
    (parts sys_path : list string) :
  let missing a := negb (existsb (String.eqb a) sys_path) in
  exists added,
    extend_sys_path sep (p :: parts) sys_path = Returned (sys_path ++ added)
    /\ added = filter missing (first_seen (parents sep p parts))
    /\ (sep <> EmptyString ->
        NoDup (parents sep p parts)
        /\ added = filter missing (parents sep p parts))
    /\ NoDup added
    /\ forall a, In a added <-> In a (parents sep p parts) /\ ~ In a sys_path.
Proof.
  intros missing.
  destruct (add_parents_appends sep p parts sys_path) as (added & Heq & Hnd & Hin).
  exists added. unfold extend_sys_path. rewrite Heq.
  assert (Ha : added = filter missing (first_seen (parents sep p parts))).
  { rewrite add_parents_in_order in Heq. now apply app_inv_head in Heq. }
  split; [reflexivity|]. split; [exact Ha|].
  split; [|split; assumption].
  intros Hsep. pose proof (parents_NoDup p parts Hsep) as Hp.
  split; [exact Hp|]. now rewrite Ha, first_seen_NoDup.
Qed.

Example extend_sys_path_of_home :
  extend_sys_path "/" [""; "home"; "nick"; "notebooks"] ["/home"; "/usr/lib"]
  = Returned ["/home"; "/usr/lib"; "/home/nick"; "/home/nick/notebooks"].
Proof. reflexivity. Qed.

(** ** The cells of the parsed table *)

Module WebScraperCells.
Import WebScraper WebScraperFacts.

Lemma all_some_map_if {A B : Type} (f : A -> option B) (p : A -> bool)
    (g : A -> B) (l : list A) :
  (forall a, f a = if p a then Some (g a) else None) ->
  all_some (map f l) = if forallb p l then Some (map g l) else None.
Proof.
  intros Hf. induction l as [|a t IH]; cbn [map all_some forallb]; [reflexivity|].
  rewrite Hf. destruct (p a); cbn [andb]; [|reflexivity].
  rewrite IH. now destruct (forallb p t).
Qed.

Lemma astype_float_row_dec (to_float : string -> option pyfloat)
    (js : list nat) (r : list cell) :
  astype_float_row to_float js r
  = if row_parses to_float js r then Some (row_as_float to_float js r) else None.
Proof.
  unfold astype_float_row, row_parses, row_as_float.
  apply all_some_map_if. intros [j c]. cbn [fst snd]. unfold parses, as_float.
  destruct (existsb _ js); cbn [implb]; [|reflexivity].
  now destruct (astype_float_cell to_float c).
Qed.

Lemma convert_column_dec (to_float : string -> option pyfloat)
    (df : DataFrame) (l : col_label) :
  convert_column to_float df l
  = if label_parses to_float df l
    then {| columns := columns df;
            values := map (row_as_float to_float (positions_of df l)) (values df) |}
    else df.
Proof.
  unfold convert_column.
  rewrite (all_some_map_if _ (row_parses to_float (positions_of df l))
             (row_as_float to_float (positions_of df l)))
    by (intros r; apply astype_float_row_dec).
  unfold label_parses. now destruct (forallb _ _).
Qed.

(** *** What the fill loops write *)

Lemma nth_error_middle {A : Type} (done rest : list A) (r : A) :
  nth_error (done ++ r :: rest) (length done) = Some r.
Proof. rewrite nth_error_app2, Nat.sub_diag by lia. reflexivity. Qed.

Lemma set_nth_middle {A : Type} (done rest : list A) (r x : A) :
  set_nth (length done) x (done ++ r :: rest) = done ++ x :: rest.
Proof. induction done as [|a t IH]; cbn; [reflexivity|now rewrite IH]. Qed.

Lemma skipn_repeat {A : Type} (x : A) (n w : nat) :
  skipn n (repeat x w) = repeat x (w - n).
Proof.
  revert w. induction n as [|n IH]; intros [|w]; cbn; try reflexivity.
  apply IH.
Qed.

(** The inner loop overwrites the cells from [column_marker] on with the
    texts and leaves every other cell of the frame alone. *)
Lemma fill_row_values (cols : list string) :
  forall (df : DataFrame) (done rest : list (list cell)) (pre suf : list cell),
    values df = done ++ (pre ++ suf) :: rest ->
    (length cols <= length suf)%nat ->
    fill_row df (length done) (length pre) cols
    = Returned {| columns := columns df;
                  values := done ++ (pre ++ map Text cols
                                      ++ skipn (length cols) suf) :: rest |}.
Proof.
  induction cols as [|c t IH]; intros df done rest pre suf Hv Hlen;
    cbn [fill_row map length skipn app].
  - rewrite <- Hv. now destruct df.
  - destruct suf as [|s0 suf']; cbn [length] in Hlen; [lia|].
    unfold iat_set. rewrite Hv, nth_error_middle.
    assert (Hlt : Nat.ltb (length pre) (length (pre ++ s0 :: suf')) = true).
    { apply Nat.ltb_lt. rewrite length_app. cbn. lia. }
    rewrite Hlt, !set_nth_middle. cbn [bind].
    replace (S (length pre)) with (length (pre ++ [Text c]))
      by (rewrite length_app; cbn; lia).
    rewrite (IH _ done rest (pre ++ [Text c]) suf');
      [| cbn [values]; now rewrite <- app_assoc | lia].
    cbn [columns]. now rewrite <- app_assoc.
Qed.

(** The outer loop writes the data rows, in the order of the document,
    into the rows of the frame from [row_marker] on. *)
Lemma fill_values (w : nat) (table : Tag) :
  forall (df : DataFrame) (done : list (list cell)) (k : nat),
    values df = done ++ repeat (repeat (Number NaN) w) k ->
    (length (data_rows table) <= k)%nat ->
    (forall row, In row table -> length (td row) <= w)%nat ->
    fill df (length done) table
    = Returned {| columns := columns df;
                  values := done ++ map (padded w) (data_rows table)
                            ++ repeat (repeat (Number NaN) w)
                                      (k - length (data_rows table)) |}.
Proof.
  induction table as [|row t IH]; intros df done k Hv Hk Hw; cbn [fill].
  - cbn. rewrite Nat.sub_0_r, <- Hv. now destruct df.
  - unfold data_rows in *. cbn [filter] in *. fold (data_rows t) in *.
    destruct (td row) as [|c cs] eqn:Htd.
    + cbn [fill_row bind length Nat.ltb Nat.leb] in *.
      apply IH; [assumption|assumption|].
      intros r Hr. apply Hw. now right.
    + cbn [length Nat.ltb Nat.leb] in *.
      destruct k as [|k']; [lia|]. cbn [repeat] in Hv.
      assert (Hrow : (length (c :: cs) <= w)%nat)
        by (rewrite <- Htd; apply Hw; now left).
      pose proof (@fill_row_values (c :: cs) df done
                    (repeat (repeat (Number NaN) w) k')
                    [] (repeat (Number NaN) w) Hv) as Hfill.
      rewrite repeat_length in Hfill. specialize (Hfill Hrow).
      cbn [length app] in Hfill. cbn [length]. rewrite Hfill.
      cbn [bind app].
      replace (S (length done))
        with (length (done ++ [map Text (c :: cs)
                                 ++ skipn (length (c :: cs)) (repeat (Number NaN) w)]))
        by (rewrite length_app; cbn; lia).
      rewrite (IH _ _ k'); cbn [values columns];
        [| now rewrite <- app_assoc | lia | intros r Hr; apply Hw; now right].
      cbn [map]. unfold padded at 2. rewrite Htd, skipn_repeat.
      cbn [length Nat.sub]. now rewrite <- app_assoc.
Qed.

(** Past the safeguard and without a row too wide, the parser returns the
    conversion of the filled frame. *)
Lemma html_table_to_df_filled (to_float : string -> option pyfloat) (table : Tag) :
  ~ titles_mismatch table ->
  (forall row, In row table -> length (td row) <= first_row_width table)%nat ->
  html_table_to_df to_float table = Returned (convert to_float (filled table)).
Proof.
  intros Hn Hw. rewrite (html_table_to_df_titles_ok to_float Hn).
  pose proof (expected_columns_length Hn) as Hlen.
  change 0%nat with (@length (list cell) []) at 1.
  rewrite (@fill_values (first_row_width table) table _ [] (length (data_rows table)));
    [| cbn; now rewrite Hlen | lia | exact Hw].
  cbn [bind app columns empty_frame].
  now rewrite Nat.sub_diag, app_nil_r.
Qed.

(** *** What the conversion changes *)

Lemma col_label_eqb_spec (a b : col_label) : reflect (a = b) (col_label_eqb a b).
Proof.
  destruct a as [x|x], b as [y|y]; cbn; try (constructor; discriminate).
  - destruct (String.eqb_spec x y); constructor; congruence.
  - destruct (Nat.eqb_spec x y); constructor; congruence.
Qed.

Lemma existsb_eqb_filter_seq (p : nat -> bool) (j n : nat) :
  forall a, existsb (Nat.eqb j) (filter p (seq a n))
            = (Nat.leb a j && Nat.ltb j (a + n) && p j)%bool.
Proof.
  induction n as [|n IH]; intros a; cbn [seq filter existsb].
  - destruct (Nat.leb_spec a j), (Nat.ltb_spec j (a + 0)); cbn; try reflexivity; lia.
  - destruct (Nat.eq_dec j a) as [->|Hne].
    + rewrite Nat.leb_refl.
      replace (Nat.ltb a (a + S n)) with true
        by (symmetry; apply Nat.ltb_lt; lia).
      cbn [andb]. destruct (p a) eqn:Hpa; cbn [existsb].
      * now rewrite Nat.eqb_refl.
      * rewrite IH.
        replace (Nat.leb (S a) a) with false
          by (symmetry; apply Nat.leb_gt; lia).
        reflexivity.
    + assert (Hskip : existsb (Nat.eqb j)
                        (if p a then a :: filter p (seq (S a) n)
                         else filter p (seq (S a) n))
                      = existsb (Nat.eqb j) (filter p (seq (S a) n))).
      { destruct (p a); cbn [existsb]; [|reflexivity].
        now rewrite (proj2 (Nat.eqb_neq j a) Hne). }
      rewrite Hskip, IH.
      replace (a + S n)%nat with (S a + n)%nat by lia.
      f_equal. f_equal.
      destruct (Nat.leb_spec (S a) j), (Nat.leb_spec a j); try reflexivity; lia.
Qed.

(** A position is among those of a label when the column there carries it. *)
Lemma mem_positions_of (df : DataFrame) (l : col_label) (j : nat) :
  existsb (Nat.eqb j) (positions_of df l)
  = match nth_error (columns df) j with
    | Some l' => col_label_eqb l l'
    | None => false
    end.
Proof.
  unfold positions_of. rewrite existsb_eqb_filter_seq.
  cbn [Nat.leb Nat.add andb].
  destruct (nth_error (columns df) j) as [l'|] eqn:Hj.
  - replace (Nat.ltb j (length (columns df))) with true; [reflexivity|].
    symmetry. apply Nat.ltb_lt, nth_error_Some. congruence.
  - apply Bool.andb_false_r.
Qed.

Lemma nth_error_row_as_float (to_float : string -> option pyfloat)
    (js : list nat) (r : list cell) (j : nat) :
  nth_error (row_as_float to_float js r) j
  = option_map (fun c => if existsb (Nat.eqb j) js then as_float to_float c else c)
               (nth_error r j).
Proof. unfold row_as_float. now rewrite nth_error_map_combine_seq. Qed.

Lemma In_combine_seq {A : Type} (l : list A) (j : nat) (c : A) :
  In (j, c) (combine (seq 0 (length l)) l) <-> nth_error l j = Some c.
Proof.
  split.
  - intros Hin. apply In_nth_error in Hin. destruct Hin as [k Hk].
    destruct (nth_error l k) as [c'|] eqn:Hc.
    + rewrite (nth_error_combine_seq l 0 k Hc) in Hk. cbn in Hk. congruence.
    + apply nth_error_None in Hc.
      assert (H : nth_error (combine (seq 0 (length l)) l) k = None)
        by (apply nth_error_None; rewrite length_combine, length_seq; lia).
      congruence.
  - intros Hc. eapply nth_error_In. apply (nth_error_combine_seq l 0 j Hc).
Qed.

Lemma row_parses_iff (to_float : string -> option pyfloat)
    (js : list nat) (r : list cell) :
  row_parses to_float js r = true <->
  forall j c, nth_error r j = Some c -> existsb (Nat.eqb j) js = true ->
              parses to_float c = true.
Proof.
  unfold row_parses. rewrite forallb_forall. split.
  - intros H j c Hc Hj. apply In_combine_seq in Hc.
    specialize (H _ Hc). cbn [fst snd] in H. now rewrite Hj in H.
  - intros H [j c] Hin. apply In_combine_seq in Hin. cbn [fst snd].
    destruct (existsb (Nat.eqb j) js) eqn:Hj; [|reflexivity].
    cbn. now apply (H j c).
Qed.

(** The test of a label, cell by cell. *)
Lemma label_parses_iff (to_float : string -> option pyfloat)
    (df : DataFrame) (l : col_label) :
  label_parses to_float df l = true <->
  forall i j c, cell_of df i j = Some c -> nth_error (columns df) j = Some l ->
                parses to_float c = true.
Proof.
  unfold label_parses, cell_of. rewrite forallb_forall. split.
  - intros H i j c Hc Hj.
    destruct (nth_error (values df) i) as [r|] eqn:Hr; [|discriminate Hc].
    apply nth_error_In in Hr. specialize (H r Hr).
    rewrite row_parses_iff in H. apply (H j c Hc).
    rewrite mem_positions_of, Hj. now destruct (col_label_eqb_spec l l).
  - intros H r Hr. apply In_nth_error in Hr. destruct Hr as [i Hi].
    apply row_parses_iff. intros j c Hc Hj.
    rewrite mem_positions_of in Hj.
    destruct (nth_error (columns df) j) as [l'|] eqn:Hl; [|discriminate Hj].
    destruct (col_label_eqb_spec l l'); [subst l'|discriminate Hj].
    apply (H i j c); [now rewrite Hi|assumption].
Qed.

Lemma parses_as_float (to_float : string -> option pyfloat) (c : cell) :
  parses to_float c = true -> parses to_float (as_float to_float c) = true.
Proof.
  unfold parses, as_float. destruct c as [s|f]; cbn; [|reflexivity].
  now destruct (to_float s).
Qed.

Lemma as_float_idem (to_float : string -> option pyfloat) (c : cell) :
  as_float to_float (as_float to_float c) = as_float to_float c.
Proof.
  unfold as_float. destruct c as [s|f]; cbn; [|reflexivity].
  destruct (to_float s) eqn:Hs; cbn; [reflexivity|now rewrite Hs].
Qed.

(** One turn of the conversion loop: the cells under the label are
    converted when all of them are accepted; nothing else changes. *)
Lemma cell_of_convert_column (to_float : string -> option pyfloat)
    (df : DataFrame) (l : col_label) (i j : nat) :
  cell_of (convert_column to_float df l) i j
  = option_map (fun c => if existsb (Nat.eqb j) (positions_of df l)
                            && label_parses to_float df l
                         then as_float to_float c else c)
               (cell_of df i j).
Proof.
  rewrite convert_column_dec. unfold cell_of.
  destruct (label_parses to_float df l); cbn [values].
  - rewrite nth_error_map.
    destruct (nth_error (values df) i) as [r|]; cbn [option_map]; [|reflexivity].
    rewrite nth_error_row_as_float.
    destruct (nth_error r j); cbn [option_map]; [|reflexivity].
    now rewrite Bool.andb_true_r.
  - destruct (nth_error (values df) i) as [r|]; [|reflexivity].
    destruct (nth_error r j); cbn [option_map]; [|reflexivity].
    now rewrite Bool.andb_false_r.
Qed.

Lemma columns_convert_column (to_float : string -> option pyfloat)
    (df : DataFrame) (l : col_label) :
  columns (convert_column to_float df l) = columns df.
Proof. rewrite convert_column_dec. now destruct (label_parses to_float df l). Qed.

(** A turn for one label leaves the test of every label as it was. *)
Lemma label_parses_convert_column (to_float : string -> option pyfloat)
    (df : DataFrame) (l l' : col_label) :
  label_parses to_float (convert_column to_float df l) l'
  = label_parses to_float df l'.
Proof.
  apply Bool.eq_iff_eq_true. rewrite !label_parses_iff.
  rewrite columns_convert_column. split.
  - intros H i j c Hc Hj.
    specialize (H i j). rewrite cell_of_convert_column, Hc in H.
    cbn [option_map] in H. specialize (H _ eq_refl Hj).
    destruct (existsb (Nat.eqb j) (positions_of df l)
              && label_parses to_float df l) eqn:Hconv; [|exact H].
    apply Bool.andb_true_iff in Hconv. destruct Hconv as [Hmem Hok].
    rewrite label_parses_iff in Hok. apply (Hok i j c Hc).
    rewrite mem_positions_of, Hj in Hmem.
    destruct (col_label_eqb_spec l l'); [congruence|discriminate Hmem].
  - intros H i j c Hc Hj.
    rewrite cell_of_convert_column in Hc.
    destruct (cell_of df i j) as [c0|] eqn:Hc0; [|discriminate Hc].
    cbn [option_map] in Hc. injection Hc as <-.
    specialize (H i j c0 Hc0 Hj).
    destruct (_ && _); [now apply parses_as_float|exact H].
Qed.

Lemma positions_of_convert_column (to_float : string -> option pyfloat)
    (df : DataFrame) (l l' : col_label) :
  positions_of (convert_column to_float df l) l' = positions_of df l'.
Proof. unfold positions_of. now rewrite columns_convert_column. Qed.

Lemma existsb_ext_all {A : Type} (p q : A -> bool) (l : list A) :
  (forall a, p a = q a) -> existsb p l = existsb q l.
Proof. intros H. induction l as [|a t IH]; cbn; [reflexivity|now rewrite H, IH]. Qed.

(** The whole conversion loop over the labels [L]. *)
Lemma cell_of_fold_convert (to_float : string -> option pyfloat) (L : list col_label) :
  forall (df : DataFrame) (i j : nat),
    columns (fold_left (convert_column to_float) L df) = columns df
    /\ cell_of (fold_left (convert_column to_float) L df) i j
       = option_map
           (fun c => if existsb (fun l => existsb (Nat.eqb j) (positions_of df l)
                                          && label_parses to_float df l) L
                     then as_float to_float c else c)
           (cell_of df i j).
Proof.
  induction L as [|l t IH]; intros df i j; cbn [fold_left existsb].
  - split; [reflexivity|]. now destruct (cell_of df i j).
  - destruct (IH (convert_column to_float df l) i j) as [Hc Hcell].
    split; [now rewrite Hc, columns_convert_column|].
    rewrite Hcell, cell_of_convert_column.
    rewrite (existsb_ext_all _
               (fun l' => existsb (Nat.eqb j) (positions_of df l')
                          && label_parses to_float df l'))
      by (intros l'; now rewrite positions_of_convert_column,
                                 label_parses_convert_column).
    clear Hc Hcell IH.
    set (A := existsb (Nat.eqb j) (positions_of df l) && label_parses to_float df l).
    set (B := existsb _ t).
    destruct (cell_of df i j) as [c|]; cbn [option_map]; [|reflexivity].
    f_equal. destruct A, B; cbn [orb]; try reflexivity.
    apply as_float_idem.
Qed.

(** The conversion, cell by cell: the cells of a label become floats when
    every cell under the label is accepted, and stay as they are when one
    is not. *)
Lemma cell_of_convert (to_float : string -> option pyfloat)
    (df : DataFrame) (i j : nat) (l : col_label) :
  nth_error (columns df) j = Some l ->
  cell_of (convert to_float df) i j
  = option_map (fun c => if label_parses to_float df l
                         then as_float to_float c else c)
               (cell_of df i j).
Proof.
  intros Hj. unfold convert.
  destruct (cell_of_fold_convert to_float (columns df) df i j) as [_ ->].
  assert (Hex : existsb (fun l' => existsb (Nat.eqb j) (positions_of df l')
                                   && label_parses to_float df l') (columns df)
                = label_parses to_float df l).
  { apply Bool.eq_iff_eq_true. rewrite existsb_exists. split.
    - intros (l' & _ & Hl'). apply Bool.andb_true_iff in Hl'.
      destruct Hl' as [Hmem Hok]. rewrite mem_positions_of, Hj in Hmem.
      destruct (col_label_eqb_spec l' l); [congruence|discriminate Hmem].
    - intros Hok. exists l. split; [eapply nth_error_In; eassumption|].
      rewrite mem_positions_of, Hj, Hok.
      now destruct (col_label_eqb_spec l l). }
  now rewrite Hex.
Qed.

Lemma columns_convert (to_float : string -> option pyfloat) (df : DataFrame) :
  columns (convert to_float df) = columns df.
Proof.
  unfold convert.
  now destruct (cell_of_fold_convert to_float (columns df) df 0 0) as [-> _].
Qed.

(** *** The cells of the filled frame *)

Lemma cell_of_filled (table : Tag) (i j : nat) :
  cell_of (filled table) i j
  = match nth_error (data_rows table) i with
    | Some row => nth_error (padded (first_row_width table) row) j
    | None => None
    end.
Proof.
  unfold cell_of, filled; cbn [values]. rewrite nth_error_map.
  now destruct (nth_error (data_rows table) i).
Qed.

Lemma nth_error_padded (w : nat) (row : tr) (j : nat) :
  (length (td row) <= w)%nat -> (j < w)%nat ->
  nth_error (padded w row) j
  = Some match nth_error (td row) j with
         | Some s => Text s
         | None => Number NaN
         end.
Proof.
  intros Hlen Hj. unfold padded.
  destruct (nth_error (td row) j) as [s|] eqn:Hs.
  - rewrite nth_error_app1
      by (rewrite length_map; apply nth_error_Some; congruence).
    now rewrite nth_error_map, Hs.
  - apply nth_error_None in Hs.
    rewrite nth_error_app2 by (rewrite length_map; exact Hs).
    rewrite length_map. apply nth_error_repeat. lia.
Qed.

Lemma data_rows_In (table : Tag) (row : tr) :
  In row (data_rows table) -> In row table.
Proof. unfold data_rows. rewrite filter_In. tauto. Qed.

Lemma html_table_to_df_mismatch (to_float : string -> option pyfloat) (table : Tag) :
  titles_mismatch table ->
  html_table_to_df to_float table
  = Raised (Exception "Column titles do not match the number of columns").
Proof.
  intros [Hne Hlen]. unfold html_table_to_df. rewrite count_table_eq.
  cbn [n_columns n_rows column_names].
  destruct (header table) as [|nm nms]; [congruence|].
  apply Nat.eqb_neq in Hlen. rewrite Hlen. reflexivity.
Qed.

Lemma titles_mismatch_dec (table : Tag) :
  {titles_mismatch table} + {~ titles_mismatch table}.
Proof.
  unfold titles_mismatch.
  destruct (header table) as [|nm nms].
  - right. intros [H _]. now apply H.
  - destruct (Nat.eq_dec (length (nm :: nms)) (first_row_width table)) as [He|Hne].
    + right. intros [_ H]. now apply H.
    + left. split; [discriminate|assumption].
Qed.

Lemma wide_row_dec (table : Tag) :
  {has_wide_row table}
  + {forall row, In row table -> (length (td row) <= first_row_width table)%nat}.
Proof.
  destruct (Forall_Exists_dec
              (fun row => (length (td row) <= first_row_width table)%nat)
              (fun row => le_dec (length (td row)) (first_row_width table))
              table) as [Hall|Hex].
  - right. now apply Forall_forall.
  - left. apply Exists_exists in Hex. destruct Hex as (row & Hin & Hrow).
    exists row. split; [assumption|lia].
Qed.

(** X16: The parser raises exactly on a title mismatch or on a row with more
    [td] cells than the first data row; the first is its own exception,
    the second the IndexError of [df.iat]. *)
Theorem html_table_to_df_raises_iff (to_float : string -> option pyfloat) (table : Tag) :
  (raises (html_table_to_df to_float table)
   <-> titles_mismatch table \/ has_wide_row table)
  /\ (~ titles_mismatch table -> has_wide_row table ->
      html_table_to_df to_float table = Raised IndexError).
Proof.
  split; [|intros Hn Hw; now apply html_table_to_df_wide_row].
  split.
  - intros [e He].
    destruct (titles_mismatch_dec table) as [Hm|Hn]; [now left|].
    destruct (wide_row_dec table) as [Hw|Hall]; [now right|].
    rewrite (html_table_to_df_filled to_float Hn Hall) in He. discriminate He.
  - intros [Hm|Hw].
    + eexists. now apply html_table_to_df_mismatch.
    + destruct (titles_mismatch_dec table) as [Hm|Hn].
      * eexists. now apply html_table_to_df_mismatch.
      * exists IndexError. now apply html_table_to_df_wide_row.
Qed.

Lemma filter_nil_forall {A : Type} (p : A -> bool) (l : list A) :
  filter p l = [] -> forall a, In a l -> p a = false.
Proof.
  induction l as [|x t IH]; cbn; intros H a Ha; [destruct Ha|].
  destruct (p x) eqn:Hx; [discriminate H|].
  destruct Ha as [<-|Ha]; [assumption|now apply IH].
Qed.

(** X17: A table in which no row holds a [td] cell: with [th] cells it raises
    the exception on the titles (their number is compared with 0), and
    without any it gives the frame of no row and no column. *)
Theorem html_table_to_df_without_td (to_float : string -> option pyfloat) (table : Tag) :
  data_rows table = [] ->
  (header table <> [] ->
   html_table_to_df to_float table
   = Raised (Exception "Column titles do not match the number of columns"))
  /\ (header table = [] ->
      html_table_to_df to_float table = Returned {| columns := []; values := [] |}).
Proof.
  intros Hd. assert (Hw : first_row_width table = 0%nat)
    by (unfold first_row_width; now rewrite Hd).
  split.
  - intros Hh. apply html_table_to_df_mismatch. split; [assumption|].
    rewrite Hw. destruct (header table); [congruence|discriminate].
  - intros Hh. rewrite html_table_to_df_filled.
    + unfold filled, expected_columns. rewrite Hh, Hd, Hw. reflexivity.
    + intros [Hne _]. now apply Hne.
    + intros row Hrow. rewrite Hw.
      pose proof (filter_nil_forall _ _ Hd row Hrow) as Hp.
      apply Nat.ltb_ge in Hp. exact Hp.
Qed.

Lemma html_table_to_df_without_td_witness :
  (header [ {| td := []; th := ["Team"; "Runs"] |} ] <> [] ->
   html_table_to_df (fun _ => None) [ {| td := []; th := ["Team"; "Runs"] |} ]
   = Raised (Exception "Column titles do not match the number of columns"))
  /\ (header [ {| td := []; th := ["Team"; "Runs"] |} ] = [] ->
      html_table_to_df (fun _ => None) [ {| td := []; th := ["Team"; "Runs"] |} ]
      = Returned {| columns := []; values := [] |}).
Proof.
  apply (@html_table_to_df_without_td (fun _ => None)
           [ {| td := []; th := ["Team"; "Runs"] |} ]).
  reflexivity.
Defined.

Lemma expected_columns_nth (table : Tag) (j : nat) :
  ~ titles_mismatch table -> (j < first_row_width table)%nat ->
  exists l, nth_error (expected_columns table) j = Some l.
Proof.
  intros Hn Hj. rewrite <- (expected_columns_length Hn) in Hj.
  destruct (nth_error (expected_columns table) j) as [l|] eqn:Hl; [eauto|].
  apply nth_error_None in Hl. lia.
Qed.

(** X18: The cell of the returned frame at the place of a [td] holds its text,
    or the float the text parses to; a text that does not parse is kept as
    text; a place past the last [td] of a short row holds NaN.  Rows are
    those with [td] cells, in the order of the document. *)
Theorem html_table_to_df_cell (to_float : string -> option pyfloat)
    (table : Tag) (i j : nat) (row : tr) :
  ~ titles_mismatch table ->
  (forall r, In r table -> length (td r) <= first_row_width table)%nat ->
  nth_error (data_rows table) i = Some row ->
  (j < first_row_width table)%nat ->
  exists df c,
    html_table_to_df to_float table = Returned df
    /\ cell_of df i j = Some c
    /\ match nth_error (td row) j with
       | Some s => match to_float s with
                   | Some f => c = Number f \/ c = Text s
                   | None => c = Text s
                   end
       | None => c = Number NaN
       end.
Proof.
  intros Hn Hall Hrow Hj.
  destruct (expected_columns_nth Hn Hj) as [l Hl].
  exists (convert to_float (filled table)).
  assert (Hcell : cell_of (filled table) i j
                  = Some match nth_error (td row) j with
                         | Some s => Text s
                         | None => Number NaN
                         end).
  { rewrite cell_of_filled, Hrow. apply nth_error_padded; [|assumption].
    apply Hall, data_rows_In. eapply nth_error_In; eassumption. }
  rewrite (@cell_of_convert to_float (filled table) i j l Hl), Hcell.
  cbn [option_map]. eexists. split; [now apply html_table_to_df_filled|].
  split; [reflexivity|].
  destruct (nth_error (td row) j) as [s|]; unfold as_float;
    cbn [astype_float_cell].
  - destruct (to_float s); destruct (label_parses to_float (filled table) l);
      cbn [option_map]; auto.
  - now destruct (label_parses to_float (filled table) l).
Qed.

Lemma html_table_to_df_cell_witness :
  exists df c,
    html_table_to_df (fun _ => None)
      [ {| td := []; th := ["Team"; "Runs"] |};
        {| td := ["BOS"; "5"]; th := [] |};
        {| td := ["NYA"]; th := [] |} ] = Returned df
    /\ cell_of df 1 1 = Some c
    /\ match nth_error (td {| td := ["NYA"]; th := [] |}) 1 with
       | Some s => match (fun _ : string => @None pyfloat) s with
                   | Some f => c = Number f \/ c = Text s
                   | None => c = Text s
                   end
       | None => c = Number NaN
       end.
Proof.
  apply (@html_table_to_df_cell (fun _ => None)
           [ {| td := []; th := ["Team"; "Runs"] |};
             {| td := ["BOS"; "5"]; th := [] |};
             {| td := ["NYA"]; th := [] |} ] 1 1 {| td := ["NYA"]; th := [] |}).
  - intros [_ H]. now apply H.
  - intros r [<-|[<-|[<-|[]]]]; cbn; lia.
  - reflexivity.
  - cbn. lia.
Defined.

Lemma NoDup_map_inj {A B : Type} (f : A -> B) (l : list A) :
  (forall a b, f a = f b -> a = b) -> NoDup l -> NoDup (map f l).
Proof.
  intros Hf Hl. induction Hl as [|a t Ha Ht IH]; cbn; constructor; [|assumption].
  intros Hin. apply in_map_iff in Hin. destruct Hin as (b & Hb & Hin).
  apply Hf in Hb. now subst b.
Qed.

Lemma expected_columns_NoDup (table : Tag) :
  NoDup (header table) -> NoDup (expected_columns table).
Proof.
  intros Hh. unfold expected_columns. destruct (header table) as [|nm nms].
  - apply NoDup_map_inj; [intros a b H; now injection H|apply seq_NoDup].
  - apply NoDup_map_inj; [intros a b H; now injection H|assumption].
Qed.

Lemma as_float_of_parsed (to_float : string -> option pyfloat) (c : cell) :
  parses to_float c = true -> exists f, as_float to_float c = Number f.
Proof.
  unfold parses, as_float. destruct c as [s|f]; cbn; [|eauto].
  destruct (to_float s); cbn; [eauto|discriminate].
Qed.

(** X19: "Convert to float if possible" is all or nothing for a column: when
    the header names are distinct, a column whose every text parses holds
    floats only, and a column with one text that does not parse is left as
    the fill loops wrote it, its other texts included. *)
Theorem html_table_to_df_column_all_or_nothing
    (to_float : string -> option pyfloat) (table : Tag) (j : nat) :
  ~ titles_mismatch table ->
  (forall r, In r table -> length (td r) <= first_row_width table)%nat ->
  NoDup (header table) ->
  (j < first_row_width table)%nat ->
  exists df,
    html_table_to_df to_float table = Returned df
    /\ ((forall row s, In row (data_rows table) -> nth_error (td row) j = Some s ->
                       to_float s <> None) ->
        forall i c, cell_of df i j = Some c -> exists f, c = Number f)
    /\ (forall row s, In row (data_rows table) -> nth_error (td row) j = Some s ->
                      to_float s = None ->
        forall i, cell_of df i j = cell_of (filled table) i j).
Proof.
  intros Hn Hall Hnd Hj.
  destruct (expected_columns_nth Hn Hj) as [l Hl].
  exists (convert to_float (filled table)).
  split; [now apply html_table_to_df_filled|].
  assert (Hcol : forall i j' c, cell_of (filled table) i j' = Some c ->
                   nth_error (columns (filled table)) j' = Some l ->
                   j' = j /\ exists row, In row (data_rows table)
                                         /\ c = match nth_error (td row) j with
                                                | Some s => Text s
                                                | None => Number NaN
                                                end).
  { intros i j' c Hc Hj'.
    assert (j' = j).
    { apply (proj1 (NoDup_nth_error _) (expected_columns_NoDup table Hnd)).
      - apply nth_error_Some. cbn [filled columns] in Hj'. congruence.
      - cbn [filled columns] in Hj'. congruence. }
    subst j'. split; [reflexivity|].
    rewrite cell_of_filled in Hc.
    destruct (nth_error (data_rows table) i) as [row|] eqn:Hrow; [|discriminate Hc].
    apply nth_error_In in Hrow. exists row. split; [assumption|].
    rewrite nth_error_padded in Hc;
      [congruence | apply Hall, data_rows_In, Hrow | assumption]. }
  split.
  - intros Hparse i c Hc.
    assert (Hok : label_parses to_float (filled table) l = true).
    { apply label_parses_iff. intros i' j' c' Hc' Hj'.
      destruct (Hcol i' j' c' Hc' Hj') as (_ & row & Hrow & ->).
      destruct (nth_error (td row) j) as [s|] eqn:Hs; [|reflexivity].
      unfold parses; cbn. specialize (Hparse row s Hrow Hs).
      now destruct (to_float s). }
    rewrite (@cell_of_convert to_float (filled table) i j l Hl), Hok in Hc.
    destruct (cell_of (filled table) i j) as [c0|] eqn:Hc0; [|discriminate Hc].
    cbn [option_map] in Hc. injection Hc as <-.
    apply as_float_of_parsed.
    apply (proj1 (label_parses_iff to_float (filled table) l) Hok i j c0 Hc0 Hl).
  - intros row s Hrow Hs Hnone i.
    assert (Hko : label_parses to_float (filled table) l = false).
    { apply Bool.not_true_iff_false. intros Hok.
      apply In_nth_error in Hrow. destruct Hrow as [i0 Hi0].
      assert (Hc0 : cell_of (filled table) i0 j = Some (Text s)).
      { rewrite cell_of_filled, Hi0, nth_error_padded, Hs;
          [reflexivity | | assumption].
        apply Hall, data_rows_In. eapply nth_error_In; eassumption. }
      pose proof (proj1 (label_parses_iff to_float (filled table) l) Hok
                    i0 j _ Hc0 Hl) as Hp.
      unfold parses in Hp; cbn in Hp. rewrite Hnone in Hp. discriminate Hp. }
    rewrite (@cell_of_convert to_float (filled table) i j l Hl), Hko.
    now destruct (cell_of (filled table) i j).
Qed.

Lemma html_table_to_df_column_all_or_nothing_witness :
  exists df,
    html_table_to_df (fun s => if String.eqb s "5" then Some (Finite (5 # 1)) else None)
      [ {| td := ["BOS"; "5"]; th := [] |}; {| td := ["NYA"]; th := [] |} ]
    = Returned df
    /\ ((forall row s,
           In row (data_rows [ {| td := ["BOS"; "5"]; th := [] |};
                               {| td := ["NYA"]; th := [] |} ]) ->
           nth_error (td row) 1 = Some s ->
           (fun s => if String.eqb s "5" then Some (Finite (5 # 1)) else None) s
           <> None) ->
        forall i c, cell_of df i 1 = Some c -> exists f, c = Number f)
    /\ (forall row s,
          In row (data_rows [ {| td := ["BOS"; "5"]; th := [] |};
                              {| td := ["NYA"]; th := [] |} ]) ->
          nth_error (td row) 1 = Some s ->
          (fun s => if String.eqb s "5" then Some (Finite (5 # 1)) else None) s
          = None ->
          forall i, cell_of df i 1
                    = cell_of (filled [ {| td := ["BOS"; "5"]; th := [] |};
                                        {| td := ["NYA"]; th := [] |} ]) i 1).
Proof.
  apply (@html_table_to_df_column_all_or_nothing
           (fun s => if String.eqb s "5" then Some (Finite (5 # 1)) else None)
           [ {| td := ["BOS"; "5"]; th := [] |}; {| td := ["NYA"]; th := [] |} ] 1).
  - intros [H _]. now apply H.
  - intros r [<-|[<-|[]]]; cbn; lia.
  - constructor.
  - cbn. lia.
Defined.

(** The two columns of that table: the texts of the first do not parse and
    stay; the second holds "5" and a missing cell and becomes floats. *)
Example html_table_to_df_converts_second_column :
  html_table_to_df (fun s => if String.eqb s "5" then Some (Finite (5 # 1)) else None)
    [ {| td := ["BOS"; "5"]; th := [] |}; {| td := ["NYA"]; th := [] |} ]
  = Returned {| columns := [Position 0; Position 1];
                values := [ [Text "BOS"; Number (Finite (5 # 1))];
                            [Text "NYA"; Number NaN] ] |}.
Proof. reflexivity. Qed.

End WebScraperCells.
